(** * Google Pay checkout flow of the billing feature

    A shallow embedding of
    [packages/manager/src/features/Billing/Providers/GooglePay.ts]:
    the adapter initialisation, the tokenization of a payment data request
    and the settlement dispatcher [gPay], together with the properties the
    specification states about them.

    The module talks to three collaborators (the Braintree / Google Pay SDK,
    the backend API and the query cache) and to two caller callbacks.  Their
    answers are not computed by this module, so they are the fields of an
    environment record; every call the module makes is recorded, in order,
    in a trace. *)

From Stdlib Require Import String Ascii List ZArith Bool Lia Permutation.
From Stdlib Require Import DecimalString.
Import ListNotations.
Local Open Scope string_scope.

(** ** JavaScript values

    Rejections are untyped in the source ([catch (error)]), and the flow
    inspects them dynamically ([error.statusCode], [!isReadyToPay]), so the
    values that cross those points are JavaScript values. *)

#[warnings="-register-all"]
Inductive JsValue : Type :=
| JsUndefined
| JsNull
| JsBool (b : bool)
| JsNumber (n : Z)
| JsString (s : string)
| JsObject (fields : list (string * JsValue)).

(** [Boolean(v)], which is also what [!v] and [v || d] test. *)
Definition truthy (v : JsValue) : bool :=
  match v with
  | JsUndefined | JsNull => false
  | JsBool b => b
  | JsNumber n => negb (n =? 0)%Z
  | JsString s => negb (s =? "")
  | JsObject _ => true
  end.

Fixpoint lookup_field (name : string) (fields : list (string * JsValue))
  : JsValue :=
  match fields with
  | [] => JsUndefined
  | (k, v) :: rest => if k =? name then v else lookup_field name rest
  end.

(** The error raised by a property access on [undefined] or [null]. *)
Definition TypeError (message : string) : JsValue :=
  JsObject [("name", JsString "TypeError"); ("message", JsString message)].

(** [v.name]: throws on [undefined] and [null], is [undefined] on the
    primitives for the names used here, and a field lookup on an object. *)
Definition get_property (v : JsValue) (name : string) : JsValue + JsValue :=
  match v with
  | JsUndefined =>
      inr (TypeError ("Cannot read properties of undefined (reading '"
                        ++ name ++ "')"))
  | JsNull =>
      inr (TypeError ("Cannot read properties of null (reading '"
                        ++ name ++ "')"))
  | JsObject fields => inl (lookup_field name fields)
  | _ => inl JsUndefined
  end.

(** [v === 'literal'] *)
Definition strict_eq_string (v : JsValue) (literal : string) : bool :=
  match v with
  | JsString s => s =? literal
  | _ => false
  end.

(** A [string | undefined] constant used where a boolean is expected. *)
Definition Boolean_opt (o : option string) : bool :=
  match o with
  | Some s => truthy (JsString s)
  | None => truthy JsUndefined
  end.

(** [o === 'literal'] for a [string | undefined] constant. *)
Definition opt_strict_eq (o : option string) (literal : string) : bool :=
  match o with
  | Some s => s =? literal
  | None => false
  end.

(** [`${o}`] inside a template literal. *)
Definition template_of (o : option string) : string :=
  match o with
  | Some s => s
  | None => "undefined"
  end.

(** ** Promises built with [new Promise(executor)]

    An executor is described by the settling calls it makes, in order.  The
    first one settles the promise; later ones are ignored; with none the
    promise stays pending. *)

Inductive Settle (A : Type) : Type :=
| Resolve (a : A)
| Reject (e : JsValue).
Arguments Resolve {A} a.
Arguments Reject {A} e.

Inductive PromiseState (A : Type) : Type :=
| Pending
| Fulfilled (a : A)
| Rejected (e : JsValue).
Arguments Pending {A}.
Arguments Fulfilled {A} a.
Arguments Rejected {A} e.

Definition new_Promise {A : Type} (executor : list (Settle A))
  : PromiseState A :=
  match executor with
  | [] => Pending
  | Resolve a :: _ => Fulfilled a
  | Reject e :: _ => Rejected e
  end.

(** ** Data of the flow *)

(** Objects handed out by the SDKs; the module never looks inside them. *)
Inductive BraintreeClient : Type := BraintreeClientObj (o : JsValue).
Inductive GooglePayment : Type := GooglePaymentObj (o : JsValue).
Inductive PaymentsClient : Type := PaymentsClientObj (o : JsValue).
Inductive PaymentData : Type := PaymentDataObj (o : JsValue).

Record MerchantInfo : Type := {
  merchantId : string;
  merchantName : string
}.

(** [Omit<TransactionInfo, 'totalPrice'> & { totalPrice?: string }] *)
Record TransactionInfo : Type := {
  totalPrice : option string;
  otherFields : list (string * JsValue)
}.

(** The request built by Braintree; only [allowedPaymentMethods] is read. *)
Record PaymentDataRequest : Type := {
  allowedPaymentMethods : JsValue;
  requestFields : list (string * JsValue)
}.

(** What [parseResponse] resolves to; only [nonce] is read. *)
Record GooglePaymentTokenizePayload : Type := {
  nonce : string;
  details : JsValue
}.

Record APIWarning : Type := {
  title : string;
  detail : string
}.

(** What [makePayment] resolves to; only [warnings] is read. *)
Record PaymentResponse : Type := {
  warnings : option (list APIWarning);
  paymentFields : list (string * JsValue)
}.

Inductive Action : Type :=
| one_time_payment
| add_recurring_payment.

(** notistack's [VariantType]; the constructors carry a prefix because
    [error] is also the field of the initialisation result. *)
Inductive VariantType : Type :=
| variant_default
| variant_error
| variant_success
| variant_warning
| variant_info.

(** The outcome of awaiting a collaborator's promise. *)
Inductive Awaited (A : Type) : Type :=
| Resolved (a : A)
| Failed (e : JsValue).
Arguments Resolved {A} a.
Arguments Failed {A} e.

(** [Promise<{ error: boolean }>] of the initialisation. *)
Record InitResult : Type := {
  error : bool
}.

(** The options object given to [new google.payments.api.PaymentsClient]. *)
Record PaymentsClientOptions : Type := {
  environment : option string;
  clientMerchantInfo : MerchantInfo;
  paymentDataCallbacks : PaymentData -> PromiseState JsValue
}.

(** ** The environment of the module

    The imported constants ([src/constants], the query keys of
    [src/queries/accountPayment] and [src/queries/accountBilling]) and the
    answers of the collaborators.  A collaborator's answer may depend on
    everything it is called with. *)

Record Env : Type := {
  GPAY_MERCHANT_ID : option string;
  GPAY_CLIENT_ENV : option string;
  accountPaymentKey : string;
  accountBillingKey : string;
  (* braintree-web *)
  braintree_client_create : string -> Awaited BraintreeClient;
  braintree_googlePayment_create :
    BraintreeClient -> Z -> option string -> Awaited GooglePayment;
  createPaymentDataRequest :
    GooglePayment -> MerchantInfo -> TransactionInfo -> list string ->
    Awaited PaymentDataRequest;
  parseResponse :
    GooglePayment -> PaymentData -> Awaited GooglePaymentTokenizePayload;
  (* google.payments.api *)
  new_PaymentsClient : PaymentsClientOptions -> Awaited PaymentsClient;
  isReadyToPay : PaymentsClient -> Z -> Z -> JsValue -> Awaited JsValue;
  loadPaymentData :
    PaymentsClient -> PaymentDataRequest -> Awaited PaymentData;
  (* @linode/api-v4 *)
  makePayment : string -> option string -> Awaited PaymentResponse;
  addPaymentMethod : string -> string -> bool -> Awaited unit
}.

(** ** Observable calls *)

Inductive Event : Type :=
| ClientCreate (authorization : string)
| GooglePaymentCreate (client : BraintreeClient) (googlePayVersion : Z)
    (googleMerchantId : option string)
| CreatePaymentDataRequest (instance : GooglePayment) (mi : MerchantInfo)
    (transactionInfo : TransactionInfo) (callbackIntents : list string)
| NewPaymentsClient (options : PaymentsClientOptions)
| IsReadyToPay (client : PaymentsClient) (apiVersion apiVersionMinor : Z)
    (allowed : JsValue)
| LoadPaymentData (client : PaymentsClient) (request : PaymentDataRequest)
| ParseResponse (instance : GooglePayment) (paymentData : PaymentData)
| MakePayment (nonce : string) (usd : option string)
| AddPaymentMethod (type : string) (nonce : string) (is_default : bool)
| InvalidateQueries (key : string)
| SetMessage (message : JsValue) (variant : VariantType)
    (warnings : option (list APIWarning))
| SetProcessing (processing : bool)
| ReportException (error : JsValue) (message : string).

(** ** State and control

    The module-level slot [let googlePaymentInstance] and the calls made so
    far.  A computation ends normally or by throwing (a rejected promise,
    once awaited); what it did before throwing stays done. *)

Record World : Type := {
  googlePaymentInstance : option GooglePayment;
  trace : list Event
}.

Inductive Completion (A : Type) : Type :=
| Normal (a : A)
| Thrown (e : JsValue).
Arguments Normal {A} a.
Arguments Thrown {A} e.

Definition M (A : Type) : Type := World -> Completion A * World.

Definition ret {A : Type} (a : A) : M A := fun w => (Normal a, w).

Definition throw {A : Type} (e : JsValue) : M A := fun w => (Thrown e, w).

Definition bind {A B : Type} (m : M A) (k : A -> M B) : M B :=
  fun w =>
    match m w with
    | (Normal a, w') => k a w'
    | (Thrown e, w') => (Thrown e, w')
    end.

Definition try_catch {A : Type} (body : M A) (handler : JsValue -> M A)
  : M A :=
  fun w =>
    match body w with
    | (Normal a, w') => (Normal a, w')
    | (Thrown e, w') => handler e w'
    end.

Declare Scope js_scope.
Delimit Scope js_scope with js.
Notation "x <- m ;; k" := (bind m (fun x => k))
  (at level 61, m at next level, right associativity) : js_scope.
Notation "m ;; k" := (bind m (fun _ => k))
  (at level 61, right associativity) : js_scope.
Local Open Scope js_scope.

Definition emit (ev : Event) : M unit :=
  fun w =>
    (Normal tt,
     {| googlePaymentInstance := googlePaymentInstance w;
        trace := trace w ++ [ev] |}).

Definition await {A : Type} (p : Awaited A) : M A :=
  match p with
  | Resolved a => ret a
  | Failed e => throw e
  end.

(** A call to a collaborator: it is made, then its outcome is awaited.
    The caller's callbacks, the query cache and the exception tracker are
    called with [emit] alone: they return nothing the module uses and are
    taken not to throw. *)
Definition call {A : Type} (ev : Event) (p : Awaited A) : M A :=
  emit ev ;; await p.

(** The receiver of [googlePaymentInstance.method(...)]. *)
Definition the_instance (method : string) : M GooglePayment :=
  fun w =>
    match googlePaymentInstance w with
    | Some instance => (Normal instance, w)
    | None =>
        (Thrown (TypeError ("Cannot read properties of undefined (reading '"
                              ++ method ++ "')")), w)
    end.

Definition set_googlePaymentInstance (instance : GooglePayment) : M unit :=
  fun w =>
    (Normal tt,
     {| googlePaymentInstance := Some instance; trace := trace w |}).

Definition property (v : JsValue) (name : string) : M JsValue :=
  match get_property v name with
  | inl x => ret x
  | inr e => throw e
  end.

(** ** The module *)

(** [s || ''] for a [string | undefined] constant. *)
Definition or_empty (o : option string) : string :=
  if Boolean_opt o then template_of o else "".

(** The authorization callback handed to the Google Pay client. *)
Definition onPaymentAuthorized (paymentData : PaymentData)
  : PromiseState JsValue :=
  new_Promise
    [Resolve (JsObject [("transactionState", JsString "SUCCESS")])].

(** The nonce handed to the settlement step: the real one (real money) when
    the Google merchant id is provided and the Google Pay environment is
    production. *)
Definition select_nonce (merchant_id client_env : option string)
    (realNonce : string) : string :=
  if Boolean_opt merchant_id && opt_strict_eq client_env "PRODUCTION"
  then realNonce
  else "fake-android-pay-nonce".

Section GooglePay.

Variable env : Env.

Definition merchantInfo : MerchantInfo :=
  {| merchantId := or_empty (GPAY_MERCHANT_ID env);
     merchantName := "Linode" |}.

Definition initGooglePaymentInstance (client_token : string)
  : M InitResult :=
  returned <-
    try_catch
      (braintreeClientToken <-
         call (ClientCreate client_token)
              (braintree_client_create env client_token) ;;
       instance <-
         call (GooglePaymentCreate braintreeClientToken 2
                 (GPAY_MERCHANT_ID env))
              (braintree_googlePayment_create env braintreeClientToken 2
                 (GPAY_MERCHANT_ID env)) ;;
       set_googlePaymentInstance instance ;;
       ret None)
      (fun error =>
         emit (ReportException error "Error initializing Google Pay.") ;;
         ret (Some {| error := true |})) ;;
  match returned with
  | Some result => ret result
  | None => ret {| error := false |}
  end.

Definition clientOptions : PaymentsClientOptions :=
  {| environment := GPAY_CLIENT_ENV env;
     clientMerchantInfo := merchantInfo;
     paymentDataCallbacks := onPaymentAuthorized |}.

Definition tokenizePaymentDataRequest (transactionInfo : TransactionInfo)
  : M string :=
  paymentDataRequest <-
    try_catch
      (instance <- the_instance "createPaymentDataRequest" ;;
       call (CreatePaymentDataRequest instance merchantInfo
               transactionInfo ["PAYMENT_AUTHORIZATION"])
            (createPaymentDataRequest env instance merchantInfo
               transactionInfo ["PAYMENT_AUTHORIZATION"]))
      (fun error =>
         emit (ReportException error "Unable to open Google Pay.") ;;
         throw (JsString "Unable to open Google Pay.")) ;;
  googlePayClient <-
    call (NewPaymentsClient clientOptions)
         (new_PaymentsClient env clientOptions) ;;
  ready <-
    call (IsReadyToPay googlePayClient 2 0
            (allowedPaymentMethods paymentDataRequest))
         (isReadyToPay env googlePayClient 2 0
            (allowedPaymentMethods paymentDataRequest)) ;;
  if negb (truthy ready)
  then throw (JsString "Your device does not support Google Pay.")
  else
    paymentData <-
      call (LoadPaymentData googlePayClient paymentDataRequest)
           (loadPaymentData env googlePayClient paymentDataRequest) ;;
    instance <- the_instance "parseResponse" ;;
    payload <-
      call (ParseResponse instance paymentData)
           (parseResponse env instance paymentData) ;;
    ret (select_nonce (GPAY_MERCHANT_ID env) (GPAY_CLIENT_ENV env)
           (nonce payload)).

(** The two cache keys, [`${accountBillingKey}-payments`] and
    [`${accountPaymentKey}-all`]. *)
Definition billing_payments_key : string :=
  accountBillingKey env ++ "-payments".

Definition payment_methods_all_key : string :=
  accountPaymentKey env ++ "-all".

Definition makeOneTimePayment (transactionInfo : TransactionInfo)
    (nonce : string) : M unit :=
  try_catch
    (response <-
       call (MakePayment nonce (totalPrice transactionInfo))
            (makePayment env nonce (totalPrice transactionInfo)) ;;
     emit (InvalidateQueries billing_payments_key) ;;
     emit (SetMessage
             (JsString ("Payment for $"
                        ++ template_of (totalPrice transactionInfo)
                        ++ " successfully submitted with Google Pay"))
             variant_success
             (warnings response)))
    (fun error =>
       emit (ReportException error
               "Unable to complete Google Pay payment") ;;
       emit (SetMessage (JsString "Unable to complete Google Pay payment")
               variant_error None)).

Definition addRecurringPayment (nonce : string) : M unit :=
  try_catch
    (call (AddPaymentMethod "payment_method_nonce" nonce true)
          (addPaymentMethod env "payment_method_nonce" nonce true) ;;
     emit (InvalidateQueries payment_methods_all_key) ;;
     emit (SetMessage (JsString "Successfully added Google Pay")
             variant_success None))
    (fun error =>
       emit (ReportException error "Unable to add payment method") ;;
       emit (SetMessage (JsString "Unable to add payment method")
               variant_error None)).

Definition gPay (action : Action) (transactionInfo : TransactionInfo)
  : M unit :=
  try_catch
    (nonce <- tokenizePaymentDataRequest transactionInfo ;;
     emit (SetProcessing true) ;;
     match action with
     | one_time_payment => makeOneTimePayment transactionInfo nonce
     | add_recurring_payment => addRecurringPayment nonce
     end ;;
     emit (SetProcessing false))
    (fun error =>
       statusCode <- property error "statusCode" ;;
       if strict_eq_string statusCode "CANCELED"
       then ret tt
       else emit (SetMessage error variant_error None)).

End GooglePay.

(** ** Reading a run *)

(** The calls a computation makes when started in [w]. *)
Definition emitted {A : Type} (m : M A) (w : World) : list Event :=
  skipn (length (trace w)) (trace (snd (m w))).

Definition is_settlement (ev : Event) : bool :=
  match ev with
  | MakePayment _ _ | AddPaymentMethod _ _ _ => true
  | _ => false
  end.

(** Loading the payment sheet and parsing its response: the two calls that
    produce the nonce. *)
Definition is_nonce_request (ev : Event) : bool :=
  match ev with
  | LoadPaymentData _ _ | ParseResponse _ _ => true
  | _ => false
  end.

Definition is_invalidation (ev : Event) : bool :=
  match ev with
  | InvalidateQueries _ => true
  | _ => false
  end.

Definition is_setMessage (ev : Event) : bool :=
  match ev with
  | SetMessage _ _ _ => true
  | _ => false
  end.

Definition is_setProcessing (ev : Event) : bool :=
  match ev with
  | SetProcessing _ => true
  | _ => false
  end.

Definition is_readiness_check (ev : Event) : bool :=
  match ev with
  | IsReadyToPay _ _ _ _ => true
  | _ => false
  end.

Definition is_report (ev : Event) : bool :=
  match ev with
  | ReportException _ _ => true
  | _ => false
  end.

Definition count (p : Event -> bool) (evs : list Event) : nat :=
  length (filter p evs).

(** A small environment to run the module against: a production
    configuration in which every collaborator answers. *)
Module Sample.

Definition client : BraintreeClient := BraintreeClientObj (JsString "bt").
Definition instance : GooglePayment := GooglePaymentObj (JsString "gp").
Definition payClient : PaymentsClient := PaymentsClientObj (JsString "pc").
Definition sheet : PaymentData := PaymentDataObj (JsString "sheet").

Definition request : PaymentDataRequest :=
  {| allowedPaymentMethods := JsObject [("type", JsString "CARD")];
     requestFields := [] |}.

Definition payload : GooglePaymentTokenizePayload :=
  {| nonce := "tokencc_bf_8x2p"; details := JsNull |}.

Definition response : PaymentResponse :=
  {| warnings := Some [ {| title := "Notice"; detail := "Pending" |} ];
     paymentFields := [] |}.

Definition transaction : TransactionInfo :=
  {| totalPrice := Some "10.00";
     otherFields := [("currencyCode", JsString "USD")] |}.

Definition canceled : JsValue :=
  JsObject [("statusCode", JsString "CANCELED")].

Definition declined : JsValue :=
  JsObject [("reason", JsString "Card declined")].

Definition production : Env :=
  {| GPAY_MERCHANT_ID := Some "BCR2DN4T";
     GPAY_CLIENT_ENV := Some "PRODUCTION";
     accountPaymentKey := "account-payment-methods";
     accountBillingKey := "account-billing";
     braintree_client_create := fun _ => Resolved client;
     braintree_googlePayment_create := fun _ _ _ => Resolved instance;
     createPaymentDataRequest := fun _ _ _ _ => Resolved request;
     parseResponse := fun _ _ => Resolved payload;
     new_PaymentsClient := fun _ => Resolved payClient;
     isReadyToPay := fun _ _ _ _ => Resolved (JsBool true);
     loadPaymentData := fun _ _ => Resolved sheet;
     makePayment := fun _ _ => Resolved response;
     addPaymentMethod := fun _ _ _ => Resolved tt |}.

(** The same environment with one answer replaced. *)
Definition with_readiness (answer : Awaited JsValue) (e : Env) : Env :=
  {| GPAY_MERCHANT_ID := GPAY_MERCHANT_ID e;
     GPAY_CLIENT_ENV := GPAY_CLIENT_ENV e;
     accountPaymentKey := accountPaymentKey e;
     accountBillingKey := accountBillingKey e;
     braintree_client_create := braintree_client_create e;
     braintree_googlePayment_create := braintree_googlePayment_create e;
     createPaymentDataRequest := createPaymentDataRequest e;
     parseResponse := parseResponse e;
     new_PaymentsClient := new_PaymentsClient e;
     isReadyToPay := fun _ _ _ _ => answer;
     loadPaymentData := loadPaymentData e;
     makePayment := makePayment e;
     addPaymentMethod := addPaymentMethod e |}.

Definition with_sheet (answer : Awaited PaymentData) (e : Env) : Env :=
  {| GPAY_MERCHANT_ID := GPAY_MERCHANT_ID e;
     GPAY_CLIENT_ENV := GPAY_CLIENT_ENV e;
     accountPaymentKey := accountPaymentKey e;
     accountBillingKey := accountBillingKey e;
     braintree_client_create := braintree_client_create e;
     braintree_googlePayment_create := braintree_googlePayment_create e;
     createPaymentDataRequest := createPaymentDataRequest e;
     parseResponse := parseResponse e;
     new_PaymentsClient := new_PaymentsClient e;
     isReadyToPay := isReadyToPay e;
     loadPaymentData := fun _ _ => answer;
     makePayment := makePayment e;
     addPaymentMethod := addPaymentMethod e |}.

Definition with_backend (charge : Awaited PaymentResponse)
    (registration : Awaited unit) (e : Env) : Env :=
  {| GPAY_MERCHANT_ID := GPAY_MERCHANT_ID e;
     GPAY_CLIENT_ENV := GPAY_CLIENT_ENV e;
     accountPaymentKey := accountPaymentKey e;
     accountBillingKey := accountBillingKey e;
     braintree_client_create := braintree_client_create e;
     braintree_googlePayment_create := braintree_googlePayment_create e;
     createPaymentDataRequest := createPaymentDataRequest e;
     parseResponse := parseResponse e;
     new_PaymentsClient := new_PaymentsClient e;
     isReadyToPay := isReadyToPay e;
     loadPaymentData := loadPaymentData e;
     makePayment := fun _ _ => charge;
     addPaymentMethod := fun _ _ _ => registration |}.

Definition with_config (merchant_id client_env : option string) (e : Env)
  : Env :=
  {| GPAY_MERCHANT_ID := merchant_id;
     GPAY_CLIENT_ENV := client_env;
     accountPaymentKey := accountPaymentKey e;
     accountBillingKey := accountBillingKey e;
     braintree_client_create := braintree_client_create e;
     braintree_googlePayment_create := braintree_googlePayment_create e;
     createPaymentDataRequest := createPaymentDataRequest e;
     parseResponse := parseResponse e;
     new_PaymentsClient := new_PaymentsClient e;
     isReadyToPay := isReadyToPay e;
     loadPaymentData := loadPaymentData e;
     makePayment := makePayment e;
     addPaymentMethod := addPaymentMethod e |}.

Definition with_setup (handle : Awaited BraintreeClient)
    (session : Awaited GooglePayment) (e : Env) : Env :=
  {| GPAY_MERCHANT_ID := GPAY_MERCHANT_ID e;
     GPAY_CLIENT_ENV := GPAY_CLIENT_ENV e;
     accountPaymentKey := accountPaymentKey e;
     accountBillingKey := accountBillingKey e;
     braintree_client_create := fun _ => handle;
     braintree_googlePayment_create := fun _ _ _ => session;
     createPaymentDataRequest := createPaymentDataRequest e;
     parseResponse := parseResponse e;
     new_PaymentsClient := new_PaymentsClient e;
     isReadyToPay := isReadyToPay e;
     loadPaymentData := loadPaymentData e;
     makePayment := makePayment e;
     addPaymentMethod := addPaymentMethod e |}.

(** The production environment, except that the client token
    ["expired"] is refused. *)
Definition expiring : Env :=
  {| GPAY_MERCHANT_ID := GPAY_MERCHANT_ID production;
     GPAY_CLIENT_ENV := GPAY_CLIENT_ENV production;
     accountPaymentKey := accountPaymentKey production;
     accountBillingKey := accountBillingKey production;
     braintree_client_create :=
       fun token =>
         if token =? "expired" then Failed declined else Resolved client;
     braintree_googlePayment_create :=
       braintree_googlePayment_create production;
     createPaymentDataRequest := createPaymentDataRequest production;
     parseResponse := parseResponse production;
     new_PaymentsClient := new_PaymentsClient production;
     isReadyToPay := isReadyToPay production;
     loadPaymentData := loadPaymentData production;
     makePayment := makePayment production;
     addPaymentMethod := addPaymentMethod production |}.

(** Before and after a successful initialisation. *)
Definition fresh : World :=
  {| googlePaymentInstance := None; trace := [] |}.

Definition initialised : World :=
  {| googlePaymentInstance := Some instance; trace := [] |}.

Definition with_request (answer : Awaited PaymentDataRequest) (e : Env)
  : Env :=
  {| GPAY_MERCHANT_ID := GPAY_MERCHANT_ID e;
     GPAY_CLIENT_ENV := GPAY_CLIENT_ENV e;
     accountPaymentKey := accountPaymentKey e;
     accountBillingKey := accountBillingKey e;
     braintree_client_create := braintree_client_create e;
     braintree_googlePayment_create := braintree_googlePayment_create e;
     createPaymentDataRequest := fun _ _ _ _ => answer;
     parseResponse := parseResponse e;
     new_PaymentsClient := new_PaymentsClient e;
     isReadyToPay := isReadyToPay e;
     loadPaymentData := loadPaymentData e;
     makePayment := makePayment e;
     addPaymentMethod := addPaymentMethod e |}.

Definition with_parse (answer : Awaited GooglePaymentTokenizePayload)
    (e : Env) : Env :=
  {| GPAY_MERCHANT_ID := GPAY_MERCHANT_ID e;
     GPAY_CLIENT_ENV := GPAY_CLIENT_ENV e;
     accountPaymentKey := accountPaymentKey e;
     accountBillingKey := accountBillingKey e;
     braintree_client_create := braintree_client_create e;
     braintree_googlePayment_create := braintree_googlePayment_create e;
     createPaymentDataRequest := createPaymentDataRequest e;
     parseResponse := fun _ _ => answer;
     new_PaymentsClient := new_PaymentsClient e;
     isReadyToPay := isReadyToPay e;
     loadPaymentData := loadPaymentData e;
     makePayment := makePayment e;
     addPaymentMethod := addPaymentMethod e |}.

(** A transaction without a total price, as for adding a payment method. *)
Definition unpriced : TransactionInfo :=
  {| totalPrice := None;
     otherFields := [("currencyCode", JsString "USD")] |}.

End Sample.

(** ** What the claims speak about *)

(** The answers of the SDK along one tokenization. *)
Record ProviderAnswers : Type := {
  ans_instance : GooglePayment;
  ans_request : PaymentDataRequest;
  ans_client : PaymentsClient;
  ans_ready : JsValue;
  ans_sheet : PaymentData;
  ans_payload : GooglePaymentTokenizePayload
}.

(** The flow gets as far as asking the provider whether the device is
    ready: the adapter holds a session, the request is built and the Google
    Pay client is constructed. *)
Definition readiness_reached (env : Env) (ti : TransactionInfo) (w : World)
    (instance : GooglePayment) (request : PaymentDataRequest)
    (client : PaymentsClient) : Prop :=
  googlePaymentInstance w = Some instance /\
  createPaymentDataRequest env instance (merchantInfo env) ti
    ["PAYMENT_AUTHORIZATION"] = Resolved request /\
  new_PaymentsClient env (clientOptions env) = Resolved client.

(** The payment sheet is shown: readiness is reached and the provider
    answers the readiness check with a truthy value. *)
Definition sheet_shown (env : Env) (ti : TransactionInfo) (w : World)
    (instance : GooglePayment) (request : PaymentDataRequest)
    (client : PaymentsClient) (ready : JsValue) : Prop :=
  readiness_reached env ti w instance request client /\
  isReadyToPay env client 2 0 (allowedPaymentMethods request)
    = Resolved ready /\
  truthy ready = true.

(** Every step of the provider flow succeeds. *)
Definition provider_flow_succeeds (env : Env) (ti : TransactionInfo)
    (w : World) (a : ProviderAnswers) : Prop :=
  sheet_shown env ti w (ans_instance a) (ans_request a) (ans_client a)
    (ans_ready a) /\
  loadPaymentData env (ans_client a) (ans_request a)
    = Resolved (ans_sheet a) /\
  parseResponse env (ans_instance a) (ans_sheet a)
    = Resolved (ans_payload a).

(** The calls of the tokenization up to and including the readiness
    check. *)
Definition readiness_calls (env : Env) (ti : TransactionInfo)
    (instance : GooglePayment) (request : PaymentDataRequest)
    (client : PaymentsClient) : list Event :=
  [ CreatePaymentDataRequest instance (merchantInfo env) ti
      ["PAYMENT_AUTHORIZATION"];
    NewPaymentsClient (clientOptions env);
    IsReadyToPay client 2 0 (allowedPaymentMethods request) ].

(** The calls of a tokenization in which every step succeeds. *)
Definition tokenization_calls (env : Env) (ti : TransactionInfo)
    (a : ProviderAnswers) : list Event :=
  readiness_calls env ti (ans_instance a) (ans_request a) (ans_client a)
  ++ [ LoadPaymentData (ans_client a) (ans_request a);
       ParseResponse (ans_instance a) (ans_sheet a) ].

(** The nonce the settlement step receives after a successful provider
    flow. *)
Definition settled_nonce (env : Env) (a : ProviderAnswers) : string :=
  select_nonce (GPAY_MERCHANT_ID env) (GPAY_CLIENT_ENV env)
    (nonce (ans_payload a)).

(** A merchant id is configured (non-empty) and the client environment is
    production. *)
Definition production_configured (env : Env) : Prop :=
  (exists id, GPAY_MERCHANT_ID env = Some id /\ id <> "") /\
  GPAY_CLIENT_ENV env = Some "PRODUCTION".

(** The backend call of each action. *)
Definition settlement_call (action : Action) (ti : TransactionInfo)
    (nonce : string) : Event :=
  match action with
  | one_time_payment => MakePayment nonce (totalPrice ti)
  | add_recurring_payment => AddPaymentMethod "payment_method_nonce" nonce true
  end.

(** The events a tokenization can produce: calls to the SDK and reports to
    the exception tracker. *)
Definition is_tokenization_event (ev : Event) : bool :=
  match ev with
  | CreatePaymentDataRequest _ _ _ _ | NewPaymentsClient _
  | IsReadyToPay _ _ _ _ | LoadPaymentData _ _ | ParseResponse _ _
  | ReportException _ _ => true
  | _ => false
  end.

(** The adapter holds no instrument session. *)
Definition adapter_unusable (w : World) : Prop :=
  googlePaymentInstance w = None.

(** The answers of the sample environment. *)
Definition sample_answers : ProviderAnswers :=
  {| ans_instance := Sample.instance;
     ans_request := Sample.request;
     ans_client := Sample.payClient;
     ans_ready := JsBool true;
     ans_sheet := Sample.sheet;
     ans_payload := Sample.payload |}.

(** The calls of the settlement handler of an action, given the nonce. *)
Definition settlement_events (env : Env) (action : Action)
    (ti : TransactionInfo) (nonce : string) : list Event :=
  match action with
  | one_time_payment =>
      MakePayment nonce (totalPrice ti) ::
      match makePayment env nonce (totalPrice ti) with
      | Resolved response =>
          [ InvalidateQueries (billing_payments_key env);
            SetMessage
              (JsString ("Payment for $" ++ template_of (totalPrice ti)
                         ++ " successfully submitted with Google Pay"))
              variant_success (warnings response) ]
      | Failed e =>
          [ ReportException e "Unable to complete Google Pay payment";
            SetMessage (JsString "Unable to complete Google Pay payment")
              variant_error None ]
      end
  | add_recurring_payment =>
      AddPaymentMethod "payment_method_nonce" nonce true ::
      match addPaymentMethod env "payment_method_nonce" nonce true with
      | Resolved _ =>
          [ InvalidateQueries (payment_methods_all_key env);
            SetMessage (JsString "Successfully added Google Pay")
              variant_success None ]
      | Failed e =>
          [ ReportException e "Unable to add payment method";
            SetMessage (JsString "Unable to add payment method")
              variant_error None ]
      end
  end.

(** What [gPay] does with a rejection of the tokenization. *)
Definition rejection_events (e : JsValue) : list Event :=
  match get_property e "statusCode" with
  | inl statusCode =>
      if strict_eq_string statusCode "CANCELED"
      then []
      else [SetMessage e variant_error None]
  | inr _ => []
  end.

(** Appending to the trace of a world. *)
Definition extend (w : World) (evs : list Event) : World :=
  {| googlePaymentInstance := googlePaymentInstance w;
     trace := trace w ++ evs |}.

(** * Database cluster creation

    The pure helper and the form handlers of
    [packages/manager/src/features/Databases/DatabaseCreate/DatabaseCreate.tsx]. *)

Module DatabaseCreate.

(** The canonical form of a character under a case-insensitive regular
    expression without the unicode flag: ASCII lower-case letters are
    upper-cased.  Strings are byte strings; the patterns of this file are
    ASCII, which no byte of a multi-byte character equals. *)
Definition canonicalize (c : ascii) : ascii :=
  let n := nat_of_ascii c in
  if ((97 <=? n) && (n <=? 122))%nat then ascii_of_nat (n - 32) else c.

Fixpoint fold_case (s : string) : string :=
  match s with
  | EmptyString => EmptyString
  | String c rest => String (canonicalize c) (fold_case rest)
  end.

(** The literal pattern matches at the start of [s], ignoring case. *)
Fixpoint matches_here (pattern s : string) : bool :=
  match pattern, s with
  | EmptyString, _ => true
  | String _ _, EmptyString => false
  | String p pattern', String c s' =>
      (canonicalize p =? canonicalize c)%char && matches_here pattern' s'
  end.

(** [s.match(/pattern/i)] is not [null], for a pattern of literal
    characters. *)
Fixpoint regex_i_match (pattern s : string) : bool :=
  matches_here pattern s
  || match s with
     | EmptyString => false
     | String _ s' => regex_i_match pattern s'
     end.

(** [DatabaseVersion]; only [engine] and [version] are read. *)
Record DatabaseVersion : Type := {
  engine : string;
  version : string;
  versionFields : list (string * JsValue)
}.

(** What [engineIcons[name]] evaluates to.  [engineIcons] is an object
    literal with the single key [mysql]; any other name is looked up on
    [Object.prototype]. *)
Inductive EngineFlag : Type :=
| flag_undefined
| flag_MySQLIcon
| flag_inherited (name : string).

Definition Object_prototype_names : list string :=
  [ "constructor"; "hasOwnProperty"; "isPrototypeOf";
    "propertyIsEnumerable"; "toLocaleString"; "toString"; "valueOf";
    "__proto__"; "__defineGetter__"; "__defineSetter__";
    "__lookupGetter__"; "__lookupSetter__" ].

Definition engineIcons (name : string) : EngineFlag :=
  if name =? "mysql" then flag_MySQLIcon
  else if existsb (String.eqb name) Object_prototype_names
       then flag_inherited name
       else flag_undefined.

(** [{ ...version, value, flag }] *)
Record EngineOption : Type := {
  source : DatabaseVersion;
  value : string;
  flag : EngineFlag
}.

Record GroupedOptions : Type := {
  label : string;
  options : list EngineOption
}.

(** Ramda's [groupBy]: an object from keys to the elements with that key,
    in their order of appearance. *)
Fixpoint group_insert {A : Type} (k : string) (x : A)
    (groups : list (string * list A)) : list (string * list A) :=
  match groups with
  | [] => [(k, [x])]
  | (k', xs) :: rest =>
      if k' =? k then (k', (xs ++ [x])%list) :: rest
      else (k', xs) :: group_insert k x rest
  end.

Definition groupBy {A : Type} (key : A -> string) (xs : list A)
  : list (string * list A) :=
  fold_left (fun acc x => group_insert (key x) x acc) xs [].

(** [groups[k]] *)
Fixpoint lookup_group {A : Type} (k : string)
    (groups : list (string * list A)) : option (list A) :=
  match groups with
  | [] => None
  | (k', xs) :: rest => if k' =? k then Some xs else lookup_group k rest
  end.

Definition engineGroup (version : DatabaseVersion) : string :=
  if regex_i_match "mysql" (engine version) then "MySQL"
  else if regex_i_match "postgresql" (engine version) then "PostgreSQL"
  else if regex_i_match "mongodb" (engine version) then "MongoDB"
  else if regex_i_match "redis" (engine version) then "Redis"
  else "Other".

Definition groupOrder : list string :=
  ["MySQL"; "PostgreSQL"; "MongoDB"; "Redis"; "Other"].

Definition toOption (v : DatabaseVersion) : EngineOption :=
  {| source := v;
     value := engine v ++ "/" ++ version v;
     flag := engineIcons (engine v) |}.

Definition getEngineOptions (versions : list DatabaseVersion)
  : list GroupedOptions :=
  let groupedVersions := groupBy engineGroup versions in
  fold_left
    (fun accum thisGroup =>
       match lookup_group thisGroup groupedVersions with
       | None => accum
       | Some group =>
           if (length group =? 0)%nat then accum
           else (accum
                 ++ [ {| label := thisGroup;
                         options := map toOption group |} ])%list
       end)
    groupOrder [].


(** ** The form *)

Module Form.

(** An entry of the allow list: [{ address: string; error?: string }]. *)
Record ExtendedIP : Type := {
  address : string;
  error : option string
}.

Record Values : Type := {
  label : string;
  engine : string;
  region : string;
  type : string;
  failover_count : Z;
  replication_type : string;
  allow_list : list ExtendedIP
}.

(** [{ ...values, allow_list: string[] }] *)
Record CreateDatabasePayload : Type := {
  payload_label : string;
  payload_engine : string;
  payload_region : string;
  payload_type : string;
  payload_failover_count : Z;
  payload_replication_type : string;
  payload_allow_list : list string
}.

(** A JavaScript number, as far as this file uses one: it is only
    rendered in a template literal.  A whole number up to
    [Number.MAX_SAFE_INTEGER] is held exactly and rendered as its decimal
    digits; of any other number (a larger one, which is rounded and from
    10^21 on printed with an exponent, or a fractional one) only the
    rendering is kept. *)
Definition MAX_SAFE_INTEGER : N := 9007199254740991.

Inductive Number : Type :=
| SafeInteger (n : N) (safe : (n <=? MAX_SAFE_INTEGER)%N = true)
| OtherNumber (rendered : string).

(** The created cluster; only [id] is read. *)
Record Database : Type := {
  id : Number;
  databaseFields : list (string * JsValue)
}.

(** [`${x}`] for a number. *)
Definition number_to_string (x : Number) : string :=
  match x with
  | SafeInteger n _ => NilEmpty.string_of_uint (N.to_uint n)
  | OtherNumber rendered => rendered
  end.

Inductive FormEvent : Type :=
| SetCreateError (message : option string)
| SetSubmitting (isSubmitting : bool)
| CreateDatabase (payload : CreateDatabasePayload)
| HistoryPush (path : string)
| HandleAPIErrors (error : JsValue)
| SetAllowList (ips : list ExtendedIP).

(** [ip => ip.error] as a test. *)
Definition has_error (ip : ExtendedIP) : bool := Boolean_opt (error ip).

(** [delete ip.error; return { ...ip }] *)
Definition without_error (ip : ExtendedIP) : ExtendedIP :=
  {| address := address ip; error := None |}.

Section Handlers.

(** [validateIPs] of [src/utilities/ipUtils] and the [createDatabase]
    mutation. *)
Variable validateIPs : list ExtendedIP -> string -> list ExtendedIP.
Variable createDatabase : CreateDatabasePayload -> Awaited Database.

(** The calls [handleIPValidation] makes. *)
Definition handleIPValidation (values : Values) : list FormEvent :=
  let validatedIps :=
    validateIPs (allow_list values) "Must be a valid IPv4 address" in
  if existsb has_error validatedIps
  then [SetAllowList validatedIps]
  else [SetAllowList (map without_error validatedIps)].

Definition createPayload (values : Values) : CreateDatabasePayload :=
  {| payload_label := label values;
     payload_engine := engine values;
     payload_region := region values;
     payload_type := type values;
     payload_failover_count := failover_count values;
     payload_replication_type := replication_type values;
     payload_allow_list := map address (allow_list values) |}.

(** The calls [submitForm] makes, in order. *)
Definition submitForm (values : Values) : list FormEvent :=
  if existsb has_error (allow_list values) then []
  else
    ([ SetCreateError None;
       SetSubmitting true;
       CreateDatabase (createPayload values) ]
     ++ match createDatabase (createPayload values) with
        | Resolved response =>
            [HistoryPush ("/databases/" ++ number_to_string (id response))]
        | Failed error => [HandleAPIErrors error]
        end
     ++ [SetSubmitting false])%list.

End Handlers.

(** [setFieldValue('allow_list', ips)] on the form values. *)
Definition set_allow_list (values : Values) (ips : list ExtendedIP)
  : Values :=
  {| label := label values;
     engine := engine values;
     region := region values;
     type := type values;
     failover_count := failover_count values;
     replication_type := replication_type values;
     allow_list := ips |}.

(** The values after the calls of a handler. *)
Fixpoint apply_events (evs : list FormEvent) (values : Values) : Values :=
  match evs with
  | [] => values
  | SetAllowList ips :: rest => apply_events rest (set_allow_list values ips)
  | _ :: rest => apply_events rest values
  end.

Definition is_createDatabase (ev : FormEvent) : bool :=
  match ev with
  | CreateDatabase _ => true
  | _ => false
  end.

End Form.

End DatabaseCreate.

(** ** Further observers of a run *)

Definition is_request_build (ev : Event) : bool :=
  match ev with
  | CreatePaymentDataRequest _ _ _ _ => true
  | _ => false
  end.

Definition is_client_construction (ev : Event) : bool :=
  match ev with
  | NewPaymentsClient _ => true
  | _ => false
  end.

Definition is_sheet (ev : Event) : bool :=
  match ev with
  | LoadPaymentData _ _ => true
  | _ => false
  end.

Definition is_parse (ev : Event) : bool :=
  match ev with
  | ParseResponse _ _ => true
  | _ => false
  end.

Definition is_client_create (ev : Event) : bool :=
  match ev with
  | ClientCreate _ => true
  | _ => false
  end.

Definition is_session_create (ev : Event) : bool :=
  match ev with
  | GooglePaymentCreate _ _ _ => true
  | _ => false
  end.

(** The nonce a backend call carries. *)
Definition settlement_nonce (ev : Event) : option string :=
  match ev with
  | MakePayment nonce _ => Some nonce
  | AddPaymentMethod _ nonce _ => Some nonce
  | _ => None
  end.

(** In a list of calls, each step of the provider flow occurs at most as
    often as the step before it, and the first at most once. *)
Definition flow_ordered (evs : list Event) : Prop :=
  count is_parse evs <= count is_sheet evs /\
  count is_sheet evs <= count is_readiness_check evs /\
  count is_readiness_check evs <= count is_client_construction evs /\
  count is_client_construction evs <= count is_request_build evs /\
  count is_request_build evs <= 1.

(** * Properties *)

(** ** Traces *)

Lemma emitted_spec {A : Type} (m : M A) (w : World) (evs : list Event) :
  trace (snd (m w)) = (trace w ++ evs)%list -> emitted m w = evs.
Proof.
  intros H. unfold emitted. rewrite H.
  rewrite skipn_app, skipn_all, Nat.sub_diag. reflexivity.
Qed.

Lemma count_none (p q : Event -> bool) (evs : list Event) :
  (forall ev, p ev = true -> q ev = false) ->
  forallb p evs = true -> count q evs = 0.
Proof.
  intros Hpq. unfold count.
  induction evs as [|ev evs IH]; simpl; intros Hall.
  - reflexivity.
  - apply andb_prop in Hall as [Hev Hrest].
    rewrite (Hpq ev Hev). auto.
Qed.

(** Unfolding the control operators of the module. *)
Ltac js_unfold :=
  cbv beta iota zeta delta
    [gPay tokenizePaymentDataRequest makeOneTimePayment addRecurringPayment
     initGooglePaymentInstance bind try_catch call emit await ret throw
     the_instance set_googlePaymentInstance property
     googlePaymentInstance trace fst snd negb extend].

(** The same, leaving the tokenization folded. *)
Ltac js_unfold_dispatch :=
  cbv beta iota zeta delta
    [gPay makeOneTimePayment addRecurringPayment
     bind try_catch call emit await ret throw property
     googlePaymentInstance trace fst snd extend].

(** ** Tokenization *)

Lemma tokenize_success env ti slot tr a :
  provider_flow_succeeds env ti
    {| googlePaymentInstance := slot; trace := tr |} a ->
  tokenizePaymentDataRequest env ti
    {| googlePaymentInstance := slot; trace := tr |}
  = (Normal (settled_nonce env a),
     {| googlePaymentInstance := slot;
        trace := tr ++ tokenization_calls env ti a |}).
Proof.
  intros [[[Hslot [Hreq Hclient]] [Hready Htruthy]] [Hsheet Hparse]].
  simpl in Hslot. subst slot.
  js_unfold. rewrite Hreq. js_unfold. rewrite Hclient. js_unfold.
  rewrite Hready. js_unfold. rewrite Htruthy. js_unfold.
  rewrite Hsheet. js_unfold. rewrite Hparse. js_unfold.
  unfold settled_nonce, tokenization_calls, readiness_calls.
  rewrite <- !app_assoc. reflexivity.
Qed.

Lemma tokenize_unready env ti slot tr instance request client ready :
  readiness_reached env ti
    {| googlePaymentInstance := slot; trace := tr |}
    instance request client ->
  isReadyToPay env client 2 0 (allowedPaymentMethods request)
    = Resolved ready ->
  truthy ready = false ->
  tokenizePaymentDataRequest env ti
    {| googlePaymentInstance := slot; trace := tr |}
  = (Thrown (JsString "Your device does not support Google Pay."),
     {| googlePaymentInstance := slot;
        trace := tr ++ readiness_calls env ti instance request client |}).
Proof.
  intros [Hslot [Hreq Hclient]] Hready Hfalsy.
  simpl in Hslot. subst slot.
  js_unfold. rewrite Hreq. js_unfold. rewrite Hclient. js_unfold.
  rewrite Hready. js_unfold. rewrite Hfalsy. js_unfold.
  unfold readiness_calls. rewrite <- !app_assoc. reflexivity.
Qed.

Lemma tokenize_sheet_rejected env ti slot tr instance request client ready e :
  sheet_shown env ti
    {| googlePaymentInstance := slot; trace := tr |}
    instance request client ready ->
  loadPaymentData env client request = Failed e ->
  tokenizePaymentDataRequest env ti
    {| googlePaymentInstance := slot; trace := tr |}
  = (Thrown e,
     {| googlePaymentInstance := slot;
        trace := tr ++ readiness_calls env ti instance request client
                    ++ [LoadPaymentData client request] |}).
Proof.
  intros [[Hslot [Hreq Hclient]] [Hready Htruthy]] Hsheet.
  simpl in Hslot. subst slot.
  js_unfold. rewrite Hreq. js_unfold. rewrite Hclient. js_unfold.
  rewrite Hready. js_unfold. rewrite Htruthy. js_unfold.
  rewrite Hsheet. js_unfold.
  unfold readiness_calls. rewrite <- !app_assoc. reflexivity.
Qed.

(** Whatever the collaborators answer, a tokenization leaves the adapter
    as it is and only talks to the SDK and to the exception tracker. *)
Lemma tokenize_events env ti w :
  exists evs,
    snd (tokenizePaymentDataRequest env ti w) = extend w evs /\
    forallb is_tokenization_event evs = true.
Proof.
  destruct w as [slot tr].
  js_unfold.
  destruct slot as [instance|]; js_unfold.
  2:{ eexists. rewrite <- ?app_assoc. split; reflexivity. }
  destruct (createPaymentDataRequest env instance (merchantInfo env) ti
              ["PAYMENT_AUTHORIZATION"]) as [request|e]; js_unfold.
  2:{ eexists. rewrite <- ?app_assoc. split; reflexivity. }
  destruct (new_PaymentsClient env (clientOptions env)) as [client|e];
    js_unfold.
  2:{ eexists. rewrite <- ?app_assoc. split; reflexivity. }
  destruct (isReadyToPay env client 2 0 (allowedPaymentMethods request))
    as [ready|e]; js_unfold.
  2:{ eexists. rewrite <- ?app_assoc. split; reflexivity. }
  destruct (truthy ready); js_unfold.
  2:{ eexists. rewrite <- ?app_assoc. split; reflexivity. }
  destruct (loadPaymentData env client request) as [sheet|e]; js_unfold.
  2:{ eexists. rewrite <- ?app_assoc. split; reflexivity. }
  destruct (parseResponse env instance sheet) as [payload|e]; js_unfold.
  all: eexists; rewrite <- ?app_assoc; split; reflexivity.
Qed.

Lemma tokenize_emitted env ti w w1 c :
  tokenizePaymentDataRequest env ti w = (c, w1) ->
  w1 = extend w (emitted (tokenizePaymentDataRequest env ti) w) /\
  forallb is_tokenization_event
    (emitted (tokenizePaymentDataRequest env ti) w) = true.
Proof.
  intros Hrun.
  destruct (tokenize_events env ti w) as [evs [Hsnd Hall]].
  assert (Hem : emitted (tokenizePaymentDataRequest env ti) w = evs).
  { apply emitted_spec. rewrite Hsnd. reflexivity. }
  rewrite Hem. split; [|exact Hall].
  rewrite Hrun in Hsnd. exact Hsnd.
Qed.

(** ** The dispatcher, given the outcome of the tokenization *)

Lemma settlement_run env action ti nonce w :
  match action with
  | one_time_payment => makeOneTimePayment env ti nonce
  | add_recurring_payment => addRecurringPayment env nonce
  end w
  = (Normal tt, extend w (settlement_events env action ti nonce)).
Proof.
  destruct w as [slot tr].
  destruct action; js_unfold_dispatch; unfold settlement_events.
  - destruct (makePayment env nonce (totalPrice ti)) as [response|e];
      js_unfold_dispatch; rewrite <- !app_assoc; reflexivity.
  - destruct (addPaymentMethod env "payment_method_nonce" nonce true)
      as [[]|e];
      js_unfold_dispatch; rewrite <- !app_assoc; reflexivity.
Qed.

Lemma gPay_after_nonce env action ti w nonce w1 :
  tokenizePaymentDataRequest env ti w = (Normal nonce, w1) ->
  gPay env action ti w
  = (Normal tt,
     extend w1 ([SetProcessing true]
                ++ settlement_events env action ti nonce
                ++ [SetProcessing false])).
Proof.
  intros Htok.
  unfold gPay, try_catch, bind at 1. rewrite Htok.
  unfold bind at 1. unfold emit at 1.
  unfold bind. rewrite settlement_run.
  unfold emit, extend. simpl.
  rewrite <- !app_assoc. reflexivity.
Qed.

Lemma gPay_after_rejection env action ti w e w1 :
  tokenizePaymentDataRequest env ti w = (Thrown e, w1) ->
  gPay env action ti w
  = (match get_property e "statusCode" with
     | inl _ => Normal tt
     | inr err => Thrown err
     end,
     extend w1 (rejection_events e)).
Proof.
  intros Htok.
  unfold gPay, try_catch, bind at 1. rewrite Htok.
  unfold rejection_events, property, bind.
  destruct (get_property e "statusCode") as [statusCode|err];
    unfold ret, throw, extend; simpl.
  - destruct (strict_eq_string statusCode "CANCELED"); simpl.
    + rewrite app_nil_r. destruct w1; reflexivity.
    + reflexivity.
  - rewrite app_nil_r. destruct w1; reflexivity.
Qed.

(** The whole run when every step of the provider flow succeeds. *)
Lemma gPay_after_provider_flow env action ti w a :
  provider_flow_succeeds env ti w a ->
  fst (gPay env action ti w) = Normal tt /\
  emitted (gPay env action ti) w
  = (tokenization_calls env ti a
     ++ [SetProcessing true]
     ++ settlement_events env action ti (settled_nonce env a)
     ++ [SetProcessing false])%list.
Proof.
  intros Hflow. destruct w as [slot tr].
  pose proof (tokenize_success env ti slot tr a Hflow) as Htok.
  pose proof (gPay_after_nonce env action ti _ _ _ Htok) as Hrun.
  split.
  - rewrite Hrun. reflexivity.
  - apply emitted_spec. rewrite Hrun. unfold extend. simpl.
    rewrite <- !app_assoc. reflexivity.
Qed.

Lemma production_configured_iff env :
  production_configured env <->
  Boolean_opt (GPAY_MERCHANT_ID env)
  && opt_strict_eq (GPAY_CLIENT_ENV env) "PRODUCTION" = true.
Proof.
  unfold production_configured, Boolean_opt, opt_strict_eq.
  rewrite andb_true_iff. split.
  - intros [[id [Hid Hne]] Henv]. rewrite Hid, Henv. simpl. split.
    + apply negb_true_iff, String.eqb_neq, Hne.
    + reflexivity.
  - intros [Hid Henv].
    destruct (GPAY_MERCHANT_ID env) as [id|]; simpl in Hid;
      [|discriminate].
    destruct (GPAY_CLIENT_ENV env) as [client_env|]; [|discriminate].
    split.
    + exists id. split; [reflexivity|].
      apply String.eqb_neq, negb_true_iff, Hid.
    + f_equal. apply String.eqb_eq, Henv.
Qed.

(** ** The claims *)

(** C1. For every provider response, tokenization returns the real nonce
    parsed from the response when a non-empty Google merchant id is
    configured and the client environment is ["PRODUCTION"]; for every other
    combination of the two configuration values it returns the literal
    ["fake-android-pay-nonce"]. *)
Theorem nonce_is_real_only_in_production env ti w a :
  provider_flow_succeeds env ti w a ->
  (production_configured env ->
   fst (tokenizePaymentDataRequest env ti w)
   = Normal (nonce (ans_payload a))) /\
  (~ production_configured env ->
   fst (tokenizePaymentDataRequest env ti w)
   = Normal "fake-android-pay-nonce").
Proof.
  intros Hflow. destruct w as [slot tr].
  rewrite (tokenize_success env ti slot tr a Hflow).
  unfold settled_nonce, select_nonce. simpl.
  split; intros Hconf.
  - apply production_configured_iff in Hconf. rewrite Hconf. reflexivity.
  - destruct (Boolean_opt (GPAY_MERCHANT_ID env)
              && opt_strict_eq (GPAY_CLIENT_ENV env) "PRODUCTION") eqn:Hsel.
    + exfalso. apply Hconf, production_configured_iff, Hsel.
    + reflexivity.
Qed.

Lemma sample_flow_succeeds :
  provider_flow_succeeds Sample.production Sample.transaction
    Sample.initialised sample_answers.
Proof. repeat split; reflexivity. Defined.

Lemma nonce_is_real_only_in_production_witness :
  fst (tokenizePaymentDataRequest Sample.production Sample.transaction
         Sample.initialised)
  = Normal "tokencc_bf_8x2p".
Proof.
  apply (proj1 (nonce_is_real_only_in_production Sample.production
                  Sample.transaction Sample.initialised sample_answers
                  sample_flow_succeeds)).
  split.
  - exists "BCR2DN4T". split; [reflexivity | discriminate].
  - reflexivity.
Defined.

(** Outside production, or without a merchant id, the parsed nonce is
    replaced. *)
Example sandbox_nonce_in_test_environment :
  fst (tokenizePaymentDataRequest
         (Sample.with_config (Some "BCR2DN4T") (Some "TEST")
            Sample.production)
         Sample.transaction Sample.initialised)
  = Normal "fake-android-pay-nonce".
Proof. reflexivity. Qed.

Example sandbox_nonce_without_merchant_id :
  fst (tokenizePaymentDataRequest
         (Sample.with_config None (Some "PRODUCTION") Sample.production)
         Sample.transaction Sample.initialised)
  = Normal "fake-android-pay-nonce" /\
  fst (tokenizePaymentDataRequest
         (Sample.with_config (Some "") (Some "PRODUCTION") Sample.production)
         Sample.transaction Sample.initialised)
  = Normal "fake-android-pay-nonce".
Proof. split; reflexivity. Qed.

(** What the readiness guard does when the answer of [isReadyToPay] is
    falsy ([false] itself included): the tokenization rejects with the
    device-not-supported message, which [gPay] hands to [setMessage] with
    error severity; the payment sheet is never loaded and no response is
    parsed, no backend settlement call is made, and the readiness check is
    asked once. *)
Theorem unready_device_stops_the_flow
    env action ti w instance request client ready :
  readiness_reached env ti w instance request client ->
  isReadyToPay env client 2 0 (allowedPaymentMethods request)
    = Resolved ready ->
  truthy ready = false ->
  let evs := emitted (gPay env action ti) w in
  fst (tokenizePaymentDataRequest env ti w)
  = Thrown (JsString "Your device does not support Google Pay.") /\
  fst (gPay env action ti w) = Normal tt /\
  evs = (readiness_calls env ti instance request client
         ++ [SetMessage (JsString "Your device does not support Google Pay.")
               variant_error None])%list /\
  count is_readiness_check evs = 1 /\
  count is_nonce_request evs = 0 /\
  count is_settlement evs = 0.
Proof.
  intros Hreach Hready Hfalsy evs. destruct w as [slot tr].
  pose proof (tokenize_unready env ti slot tr _ _ _ _ Hreach Hready Hfalsy)
    as Htok.
  pose proof (gPay_after_rejection env action ti _ _ _ Htok) as Hrun.
  assert (Hevs : evs
                 = (readiness_calls env ti instance request client
                    ++ [SetMessage
                          (JsString "Your device does not support Google Pay.")
                          variant_error None])%list).
  { apply emitted_spec. rewrite Hrun. unfold extend. simpl.
    rewrite <- app_assoc. reflexivity. }
  rewrite Htok, Hrun, Hevs. repeat split; reflexivity.
Qed.

Lemma sample_readiness_reached answer :
  readiness_reached (Sample.with_readiness answer Sample.production)
    Sample.transaction Sample.initialised
    Sample.instance Sample.request Sample.payClient.
Proof. repeat split; reflexivity. Defined.

Lemma unready_device_stops_the_flow_witness :
  emitted (gPay (Sample.with_readiness (Resolved (JsBool false))
                   Sample.production)
             one_time_payment Sample.transaction) Sample.initialised
  = (readiness_calls (Sample.with_readiness (Resolved (JsBool false))
                        Sample.production)
       Sample.transaction Sample.instance Sample.request Sample.payClient
     ++ [SetMessage (JsString "Your device does not support Google Pay.")
           variant_error None])%list.
Proof.
  apply (unready_device_stops_the_flow
           (Sample.with_readiness (Resolved (JsBool false)) Sample.production)
           one_time_payment Sample.transaction Sample.initialised
           Sample.instance Sample.request Sample.payClient (JsBool false)
           (sample_readiness_reached _) eq_refl eq_refl).
Defined.

(** An answer that is an object is truthy whatever it holds, so the flow
    goes on to the payment sheet. *)
Lemma object_answer_counts_as_ready :
  emitted (gPay (Sample.with_readiness
                   (Resolved (JsObject [("result", JsBool false)]))
                   Sample.production)
             one_time_payment Sample.transaction) Sample.initialised
  = emitted (gPay Sample.production one_time_payment Sample.transaction)
      Sample.initialised.
Proof. reflexivity. Qed.

(** C2. The readiness guard tests the answer of [isReadyToPay] itself for
    truthiness.  Google Pay answers with an object [{ result: boolean }],
    and an object is truthy whatever it holds: when the answer is
    [{ result: false }] and the later steps resolve, the guard does not
    stop the flow.  The payment sheet is loaded, its response is parsed, the
    backend call is made, and the device-not-supported message is not
    shown. *)
Theorem unready_answer_object_passes_the_guard
    env action ti w instance request client fields sheet payload :
  readiness_reached env ti w instance request client ->
  isReadyToPay env client 2 0 (allowedPaymentMethods request)
    = Resolved (JsObject fields) ->
  lookup_field "result" fields = JsBool false ->
  loadPaymentData env client request = Resolved sheet ->
  parseResponse env instance sheet = Resolved payload ->
  let evs := emitted (gPay env action ti) w in
  filter is_nonce_request evs
  = [LoadPaymentData client request; ParseResponse instance sheet] /\
  filter is_settlement evs
  = [settlement_call action ti
       (select_nonce (GPAY_MERCHANT_ID env) (GPAY_CLIENT_ENV env)
          (nonce payload))] /\
  ~ In (SetMessage (JsString "Your device does not support Google Pay.")
          variant_error None) evs.
Proof.
  intros Hreach Hready _ Hsheet Hparse evs.
  set (a := {| ans_instance := instance; ans_request := request;
               ans_client := client; ans_ready := JsObject fields;
               ans_sheet := sheet; ans_payload := payload |}).
  assert (Hflow : provider_flow_succeeds env ti w a)
    by (repeat split; try assumption; apply Hreach).
  destruct (gPay_after_provider_flow env action ti w a Hflow) as [_ Hevs].
  fold evs in Hevs. rewrite Hevs.
  unfold settlement_events, settled_nonce, tokenization_calls,
    readiness_calls.
  destruct action;
    [destruct (makePayment env _ (totalPrice ti))
    |destruct (addPaymentMethod env "payment_method_nonce" _ true)];
    (split; [reflexivity|]); (split; [reflexivity|]);
    simpl; intros Hin;
    repeat (destruct Hin as [Hin|Hin]; [discriminate Hin|]);
    exact Hin.
Qed.

Lemma unready_answer_object_passes_the_guard_witness :
  filter is_settlement
    (emitted (gPay (Sample.with_readiness
                      (Resolved (JsObject [("result", JsBool false)]))
                      Sample.production)
                one_time_payment Sample.transaction) Sample.initialised)
  = [MakePayment "tokencc_bf_8x2p" (Some "10.00")].
Proof.
  apply (unready_answer_object_passes_the_guard
           (Sample.with_readiness
              (Resolved (JsObject [("result", JsBool false)]))
              Sample.production)
           one_time_payment Sample.transaction Sample.initialised
           Sample.instance Sample.request Sample.payClient
           [("result", JsBool false)] Sample.sheet Sample.payload
           (sample_readiness_reached _) eq_refl eq_refl eq_refl eq_refl).
Defined.

(** C3. When the payment sheet is dismissed, that is, loading the payment
    data rejects with an error whose [statusCode] is ["CANCELED"], [gPay]
    ends normally without calling [setMessage], without invalidating a
    cache key and without a backend settlement call. *)
Theorem canceled_sheet_is_silent
    env action ti w instance request client ready e :
  sheet_shown env ti w instance request client ready ->
  loadPaymentData env client request = Failed e ->
  get_property e "statusCode" = inl (JsString "CANCELED") ->
  let evs := emitted (gPay env action ti) w in
  fst (gPay env action ti w) = Normal tt /\
  evs = (readiness_calls env ti instance request client
         ++ [LoadPaymentData client request])%list /\
  count is_setMessage evs = 0 /\
  count is_invalidation evs = 0 /\
  count is_settlement evs = 0.
Proof.
  intros Hshown Hsheet Hcanceled evs. destruct w as [slot tr].
  pose proof (tokenize_sheet_rejected env ti slot tr _ _ _ _ _ Hshown Hsheet)
    as Htok.
  pose proof (gPay_after_rejection env action ti _ _ _ Htok) as Hrun.
  unfold rejection_events in Hrun. rewrite Hcanceled in Hrun.
  simpl in Hrun.
  assert (Hevs : evs
                 = (readiness_calls env ti instance request client
                    ++ [LoadPaymentData client request])%list).
  { apply emitted_spec. rewrite Hrun. unfold extend. simpl.
    rewrite app_nil_r. reflexivity. }
  rewrite Hrun, Hevs. repeat split; reflexivity.
Qed.

Lemma sample_sheet_shown answer :
  sheet_shown (Sample.with_sheet answer Sample.production)
    Sample.transaction Sample.initialised
    Sample.instance Sample.request Sample.payClient (JsBool true).
Proof. repeat split; reflexivity. Defined.

Lemma canceled_sheet_is_silent_witness :
  count is_setMessage
    (emitted (gPay (Sample.with_sheet (Failed Sample.canceled)
                      Sample.production)
                add_recurring_payment Sample.transaction)
       Sample.initialised) = 0.
Proof.
  apply (canceled_sheet_is_silent
           (Sample.with_sheet (Failed Sample.canceled) Sample.production)
           add_recurring_payment Sample.transaction Sample.initialised
           Sample.instance Sample.request Sample.payClient (JsBool true)
           Sample.canceled (sample_sheet_shown _) eq_refl eq_refl).
Defined.

(** C4. For a one-time payment whose provider flow succeeds: when the
    backend charge resolves, the billing-payments key is invalidated exactly
    once, directly after the charge call and with no invalidation before it;
    when the charge fails, nothing is invalidated. *)
Theorem billing_payments_invalidated_once_after_charge env ti w a :
  provider_flow_succeeds env ti w a ->
  let evs := emitted (gPay env one_time_payment ti) w in
  let charge := MakePayment (settled_nonce env a) (totalPrice ti) in
  match makePayment env (settled_nonce env a) (totalPrice ti) with
  | Resolved _ =>
      filter is_invalidation evs
      = [InvalidateQueries (billing_payments_key env)] /\
      exists before after,
        evs = (before
               ++ charge :: InvalidateQueries (billing_payments_key env)
                  :: after)%list /\
        count is_invalidation before = 0 /\
        count is_settlement before = 0 /\
        count is_invalidation after = 0
  | Failed _ =>
      count is_invalidation evs = 0 /\ filter is_settlement evs = [charge]
  end.
Proof.
  intros Hflow evs charge.
  destruct (gPay_after_provider_flow env one_time_payment ti w a Hflow)
    as [_ Hevs].
  fold evs in Hevs. rewrite Hevs. unfold settlement_events. subst charge.
  destruct (makePayment env (settled_nonce env a) (totalPrice ti))
    as [response|e].
  - split; [reflexivity|].
    exists (tokenization_calls env ti a ++ [SetProcessing true])%list.
    eexists. split.
    + rewrite <- app_assoc. reflexivity.
    + repeat split; reflexivity.
  - split; reflexivity.
Qed.

Lemma billing_payments_invalidated_once_after_charge_witness :
  filter is_invalidation
    (emitted (gPay Sample.production one_time_payment Sample.transaction)
       Sample.initialised)
  = [InvalidateQueries "account-billing-payments"].
Proof.
  apply (billing_payments_invalidated_once_after_charge Sample.production
           Sample.transaction Sample.initialised sample_answers
           sample_flow_succeeds).
Defined.

(** C5. For a one-time payment of total price ['10.00'] whose provider flow
    and backend charge succeed, [setMessage] is called exactly once, with
    ["Payment for $10.00 successfully submitted with Google Pay"], severity
    success and the warnings of the endpoint's response. *)
Theorem ten_dollar_payment_is_announced env ti w a response :
  totalPrice ti = Some "10.00" ->
  provider_flow_succeeds env ti w a ->
  makePayment env (settled_nonce env a) (Some "10.00") = Resolved response ->
  filter is_setMessage (emitted (gPay env one_time_payment ti) w)
  = [SetMessage
       (JsString "Payment for $10.00 successfully submitted with Google Pay")
       variant_success (warnings response)].
Proof.
  intros Hprice Hflow Hcharge.
  destruct (gPay_after_provider_flow env one_time_payment ti w a Hflow)
    as [_ Hevs].
  rewrite Hevs. unfold settlement_events.
  rewrite Hprice, Hcharge. reflexivity.
Qed.

Lemma ten_dollar_payment_is_announced_witness :
  filter is_setMessage
    (emitted (gPay Sample.production one_time_payment Sample.transaction)
       Sample.initialised)
  = [SetMessage
       (JsString "Payment for $10.00 successfully submitted with Google Pay")
       variant_success (Some [ {| title := "Notice"; detail := "Pending" |} ])].
Proof.
  apply (ten_dollar_payment_is_announced Sample.production
           Sample.transaction Sample.initialised sample_answers
           Sample.response eq_refl sample_flow_succeeds eq_refl).
Defined.

(** C6. For a one-time payment whose provider flow succeeds and whose
    backend charge fails, [setMessage] is called (once) with
    ["Unable to complete Google Pay payment"] and severity error, the error is
    reported to the exception tracker, no cache key is invalidated, and the
    charge is attempted once only. *)
Theorem failed_charge_is_reported env ti w a e :
  provider_flow_succeeds env ti w a ->
  makePayment env (settled_nonce env a) (totalPrice ti) = Failed e ->
  let evs := emitted (gPay env one_time_payment ti) w in
  filter is_setMessage evs
  = [SetMessage (JsString "Unable to complete Google Pay payment")
       variant_error None] /\
  filter is_report evs
  = [ReportException e "Unable to complete Google Pay payment"] /\
  count is_invalidation evs = 0 /\
  filter is_settlement evs
  = [MakePayment (settled_nonce env a) (totalPrice ti)].
Proof.
  intros Hflow Hcharge evs.
  destruct (gPay_after_provider_flow env one_time_payment ti w a Hflow)
    as [_ Hevs].
  fold evs in Hevs. rewrite Hevs. unfold settlement_events.
  rewrite Hcharge. repeat split; reflexivity.
Qed.

Lemma sample_flow_succeeds_with_backend charge registration :
  provider_flow_succeeds
    (Sample.with_backend charge registration Sample.production)
    Sample.transaction Sample.initialised sample_answers.
Proof. repeat split; reflexivity. Defined.

Lemma failed_charge_is_reported_witness :
  filter is_setMessage
    (emitted (gPay (Sample.with_backend (Failed Sample.declined)
                      (Resolved tt) Sample.production)
                one_time_payment Sample.transaction)
       Sample.initialised)
  = [SetMessage (JsString "Unable to complete Google Pay payment")
       variant_error None].
Proof.
  apply (failed_charge_is_reported
           (Sample.with_backend (Failed Sample.declined) (Resolved tt)
              Sample.production)
           Sample.transaction Sample.initialised sample_answers
           Sample.declined (sample_flow_succeeds_with_backend _ _) eq_refl).
Defined.

(** C7. For a recurring-payment registration whose provider flow succeeds,
    the nonce is registered once as a payment method marked default; when
    the registration resolves, the key [`${accountPaymentKey}-all`] is
    invalidated exactly once, directly after the registration call, and a
    success message is reported; when it fails, a generic failure message is
    reported with error severity and nothing is invalidated. *)
Theorem recurring_payment_registration env ti w a :
  provider_flow_succeeds env ti w a ->
  let evs := emitted (gPay env add_recurring_payment ti) w in
  let registration :=
    AddPaymentMethod "payment_method_nonce" (settled_nonce env a) true in
  filter is_settlement evs = [registration] /\
  match addPaymentMethod env "payment_method_nonce" (settled_nonce env a)
          true with
  | Resolved _ =>
      filter is_invalidation evs
      = [InvalidateQueries (accountPaymentKey env ++ "-all")] /\
      (exists before after,
         evs = (before
                ++ registration
                   :: InvalidateQueries (accountPaymentKey env ++ "-all")
                   :: after)%list) /\
      filter is_setMessage evs
      = [SetMessage (JsString "Successfully added Google Pay")
           variant_success None]
  | Failed e =>
      filter is_setMessage evs
      = [SetMessage (JsString "Unable to add payment method")
           variant_error None] /\
      filter is_report evs
      = [ReportException e "Unable to add payment method"] /\
      count is_invalidation evs = 0
  end.
Proof.
  intros Hflow evs registration.
  destruct (gPay_after_provider_flow env add_recurring_payment ti w a Hflow)
    as [_ Hevs].
  fold evs in Hevs. rewrite Hevs. unfold settlement_events.
  subst registration.
  destruct (addPaymentMethod env "payment_method_nonce"
              (settled_nonce env a) true) as [[]|e].
  - split; [reflexivity|]. split; [reflexivity|]. split; [|reflexivity].
    exists (tokenization_calls env ti a ++ [SetProcessing true])%list.
    eexists. rewrite <- app_assoc. reflexivity.
  - repeat split; reflexivity.
Qed.

Lemma recurring_payment_registration_witness :
  let evs :=
    emitted (gPay Sample.production add_recurring_payment
               Sample.transaction) Sample.initialised in
  filter is_settlement evs
  = [AddPaymentMethod "payment_method_nonce" "tokencc_bf_8x2p" true] /\
  filter is_invalidation evs
  = [InvalidateQueries "account-payment-methods-all"] /\
  filter is_setMessage evs
  = [SetMessage (JsString "Successfully added Google Pay")
       variant_success None].
Proof.
  intros evs.
  pose proof (recurring_payment_registration Sample.production
                Sample.transaction Sample.initialised sample_answers
                sample_flow_succeeds) as Hrun.
  cbv zeta in Hrun. fold evs in Hrun.
  destruct Hrun as [Hcall Hresolved]. simpl in Hresolved.
  destruct Hresolved as [Hkey [_ Hmessage]].
  split; [exact Hcall|]. split; [exact Hkey | exact Hmessage].
Defined.

Lemma tokenization_never_sets_processing env ti w :
  filter is_setProcessing (emitted (tokenizePaymentDataRequest env ti) w)
  = [].
Proof.
  destruct (tokenizePaymentDataRequest env ti w) as [c w1] eqn:Hrun.
  destruct (tokenize_emitted env ti w w1 c Hrun) as [_ Hall].
  apply length_zero_iff_nil.
  apply (count_none is_tokenization_event); [|exact Hall].
  intros [] Hev; (reflexivity || discriminate Hev).
Qed.

Lemma settlement_events_shape env action ti nonce :
  exists rest,
    settlement_events env action ti nonce
    = settlement_call action ti nonce :: rest /\
    filter is_setProcessing rest = [] /\
    filter is_settlement rest = [].
Proof.
  unfold settlement_events, settlement_call. destruct action.
  - destruct (makePayment env nonce (totalPrice ti));
      eexists; repeat split; reflexivity.
  - destruct (addPaymentMethod env "payment_method_nonce" nonce true);
      eexists; repeat split; reflexivity.
Qed.

Lemma rejection_never_sets_processing e :
  filter is_setProcessing (rejection_events e) = [].
Proof.
  unfold rejection_events.
  destruct (get_property e "statusCode") as [statusCode|err];
    [destruct (strict_eq_string statusCode "CANCELED")|]; reflexivity.
Qed.

(** C10. In every [gPay] invocation, [setProcessing] is called if and only
    if the tokenization yields a nonce: then [setProcessing(true)] comes
    right after the tokenization and before the settlement call, and
    [setProcessing(false)] comes once, last, after the settlement handler,
    whether the backend call succeeded or failed; when the tokenization
    rejects (canceled or not), [setProcessing] is never called. *)
Theorem setProcessing_brackets_settlement env action ti w :
  let evs := emitted (gPay env action ti) w in
  let tokenization := emitted (tokenizePaymentDataRequest env ti) w in
  match fst (tokenizePaymentDataRequest env ti w) with
  | Normal nonce =>
      filter is_setProcessing evs = [SetProcessing true; SetProcessing false]
      /\ exists handled,
           evs = (tokenization
                  ++ SetProcessing true
                     :: settlement_call action ti nonce
                     :: handled ++ [SetProcessing false])%list /\
           filter is_setProcessing tokenization = [] /\
           filter is_settlement handled = [] /\
           filter is_setProcessing handled = []
  | Thrown _ => filter is_setProcessing evs = []
  end.
Proof.
  intros evs tokenization.
  pose proof (tokenization_never_sets_processing env ti w) as Hquiet.
  fold tokenization in Hquiet.
  destruct (tokenizePaymentDataRequest env ti w) as [[nonce|e] w1] eqn:Htok;
    destruct (tokenize_emitted env ti w w1 _ Htok) as [Hw1 _];
    fold tokenization in Hw1; simpl.
  - pose proof (gPay_after_nonce env action ti w nonce w1 Htok) as Hrun.
    destruct (settlement_events_shape env action ti nonce)
      as [handled [Hshape [Hhandled Hsettled]]].
    assert (Hevs : evs
                   = (tokenization
                      ++ SetProcessing true
                         :: settlement_call action ti nonce
                         :: handled ++ [SetProcessing false])%list).
    { apply emitted_spec. rewrite Hrun, Hw1, Hshape. unfold extend. simpl.
      rewrite <- app_assoc. reflexivity. }
    split.
    + rewrite Hevs, filter_app, Hquiet. simpl.
      replace (is_setProcessing (settlement_call action ti nonce))
        with false by (destruct action; reflexivity).
      rewrite filter_app, Hhandled. reflexivity.
    + exists handled. auto.
  - pose proof (gPay_after_rejection env action ti w e w1 Htok) as Hrun.
    assert (Hevs : evs = (tokenization ++ rejection_events e)%list).
    { apply emitted_spec. rewrite Hrun, Hw1. unfold extend. simpl.
      rewrite <- app_assoc. reflexivity. }
    rewrite Hevs, filter_app, Hquiet, rejection_never_sets_processing.
    reflexivity.
Qed.

(** C9. For every payment data, the authorization callback resolves with
    [{ transactionState: 'SUCCESS' }]: it never rejects, never stays
    pending, and its answer does not depend on the payment data. *)
Theorem authorization_always_accepts (paymentData : PaymentData) :
  onPaymentAuthorized paymentData
  = Fulfilled (JsObject [("transactionState", JsString "SUCCESS")]) /\
  (forall e, onPaymentAuthorized paymentData <> Rejected e) /\
  onPaymentAuthorized paymentData <> Pending /\
  (forall other, onPaymentAuthorized other = onPaymentAuthorized paymentData).
Proof.
  repeat split; try reflexivity; intros; discriminate.
Qed.

(** ** Initialisation *)

Lemma init_run env client_token w :
  initGooglePaymentInstance env client_token w
  = match braintree_client_create env client_token with
    | Failed e =>
        (Normal {| error := true |},
         extend w [ ClientCreate client_token;
                    ReportException e "Error initializing Google Pay." ])
    | Resolved handle =>
        match braintree_googlePayment_create env handle 2
                (GPAY_MERCHANT_ID env) with
        | Failed e =>
            (Normal {| error := true |},
             extend w [ ClientCreate client_token;
                        GooglePaymentCreate handle 2 (GPAY_MERCHANT_ID env);
                        ReportException e "Error initializing Google Pay." ])
        | Resolved session =>
            (Normal {| error := false |},
             {| googlePaymentInstance := Some session;
                trace := trace w
                         ++ [ ClientCreate client_token;
                              GooglePaymentCreate handle 2
                                (GPAY_MERCHANT_ID env) ] |})
        end
    end.
Proof.
  destruct w as [slot tr]. js_unfold.
  destruct (braintree_client_create env client_token) as [handle|e];
    js_unfold.
  - destruct (braintree_googlePayment_create env handle 2
                (GPAY_MERCHANT_ID env)) as [session|e];
      js_unfold; rewrite <- ?app_assoc; reflexivity.
  - rewrite <- ?app_assoc. reflexivity.
Qed.

(** Without an instrument session the tokenization stops at once: nothing
    is asked of the SDK. *)
Lemma unusable_adapter_cannot_tokenize env ti w :
  adapter_unusable w ->
  fst (tokenizePaymentDataRequest env ti w)
  = Thrown (JsString "Unable to open Google Pay.") /\
  filter is_report (emitted (tokenizePaymentDataRequest env ti) w)
  = emitted (tokenizePaymentDataRequest env ti) w.
Proof.
  unfold adapter_unusable. destruct w as [slot tr]. simpl.
  intros ->. split; reflexivity || idtac.
  erewrite emitted_spec.
  2:{ js_unfold. rewrite <- ?app_assoc. reflexivity. }
  reflexivity.
Qed.

(** C8, as the module behaves.  When the provider fails at the creation of
    the client handle or of the instrument session, the call reports the
    error and answers [{ error: true }], and the module-level session is
    what it was before the call; when both steps succeed, the new session is
    stored and the answer is [{ error: false }]. *)
Theorem init_reports_failure_and_keeps_session env client_token w :
  let result := fst (initGooglePaymentInstance env client_token w) in
  let w' := snd (initGooglePaymentInstance env client_token w) in
  let evs := emitted (initGooglePaymentInstance env client_token) w in
  match braintree_client_create env client_token with
  | Failed e =>
      result = Normal {| error := true |} /\
      filter is_report evs
      = [ReportException e "Error initializing Google Pay."] /\
      googlePaymentInstance w' = googlePaymentInstance w
  | Resolved handle =>
      match braintree_googlePayment_create env handle 2
              (GPAY_MERCHANT_ID env) with
      | Failed e =>
          result = Normal {| error := true |} /\
          filter is_report evs
          = [ReportException e "Error initializing Google Pay."] /\
          googlePaymentInstance w' = googlePaymentInstance w
      | Resolved session =>
          result = Normal {| error := false |} /\
          filter is_report evs = [] /\
          googlePaymentInstance w' = Some session
      end
  end.
Proof.
  intros result w' evs. subst result w'.
  assert (Hevs : evs
                 = skipn (length (trace w))
                     (trace (snd (initGooglePaymentInstance env
                                    client_token w))))
    by reflexivity.
  rewrite init_run in *.
  destruct (braintree_client_create env client_token) as [handle|e].
  - destruct (braintree_googlePayment_create env handle 2
                (GPAY_MERCHANT_ID env)) as [session|e];
      simpl in Hevs;
      rewrite skipn_app, skipn_all, Nat.sub_diag in Hevs;
      rewrite Hevs; repeat split; reflexivity.
  - simpl in Hevs.
    rewrite skipn_app, skipn_all, Nat.sub_diag in Hevs.
    rewrite Hevs. repeat split; reflexivity.
Qed.

(** A failed initialisation does not make the adapter unusable: after a
    successful initialisation, a second one with a refused token answers
    [{ error: true }] and the session of the first stays in place, so that a
    payment started afterwards reaches the backend. *)
Lemma failed_init_keeps_earlier_session :
  let first := initGooglePaymentInstance Sample.expiring "valid" Sample.fresh in
  let second := initGooglePaymentInstance Sample.expiring "expired" (snd first) in
  fst first = Normal {| error := false |} /\
  braintree_client_create Sample.expiring "expired" = Failed Sample.declined /\
  fst second = Normal {| error := true |} /\
  ~ adapter_unusable (snd second) /\
  filter is_settlement
    (emitted (gPay Sample.expiring one_time_payment Sample.transaction)
       (snd second))
  = [MakePayment "tokencc_bf_8x2p" (Some "10.00")].
Proof.
  repeat split; try reflexivity.
  intros Hunusable. discriminate Hunusable.
Qed.

(** * Further properties of the Google Pay flow *)

Lemma count_app (p : Event -> bool) (xs ys : list Event) :
  count p (xs ++ ys)%list = count p xs + count p ys.
Proof.
  unfold count. rewrite filter_app, length_app. reflexivity.
Qed.

(** Closes a case in which the tokenization rejects. *)
Ltac rejected :=
  right; eexists; eexists; split;
  [rewrite <- ?app_assoc; reflexivity
  |split; [reflexivity | cbv; repeat split; repeat constructor]].

(** Every run of the tokenization is one of two: the whole provider flow
    succeeded, or it rejected after calls that respect the order of the
    flow. *)
Lemma tokenize_inv env ti slot tr :
  let run :=
    tokenizePaymentDataRequest env ti
      {| googlePaymentInstance := slot; trace := tr |} in
  (exists a,
     provider_flow_succeeds env ti
       {| googlePaymentInstance := slot; trace := tr |} a /\
     run = (Normal (settled_nonce env a),
            {| googlePaymentInstance := slot;
               trace := tr ++ tokenization_calls env ti a |})) \/
  (exists e evs,
     run = (Thrown e,
            {| googlePaymentInstance := slot; trace := tr ++ evs |}) /\
     forallb is_tokenization_event evs = true /\
     flow_ordered evs).
Proof.
  intros run. subst run. js_unfold.
  destruct slot as [instance|]; js_unfold; [|rejected].
  destruct (createPaymentDataRequest env instance (merchantInfo env) ti
              ["PAYMENT_AUTHORIZATION"]) as [request|e] eqn:Hreq;
    js_unfold; [|rejected].
  destruct (new_PaymentsClient env (clientOptions env)) as [client|e]
    eqn:Hclient; js_unfold; [|rejected].
  destruct (isReadyToPay env client 2 0 (allowedPaymentMethods request))
    as [ready|e] eqn:Hready; js_unfold; [|rejected].
  destruct (truthy ready) eqn:Htruthy; js_unfold; [|rejected].
  destruct (loadPaymentData env client request) as [sheet|e] eqn:Hsheet;
    js_unfold; [|rejected].
  destruct (parseResponse env instance sheet) as [payload|e] eqn:Hparse;
    js_unfold; [|rejected].
  left.
  exists {| ans_instance := instance; ans_request := request;
            ans_client := client; ans_ready := ready;
            ans_sheet := sheet; ans_payload := payload |}.
  split.
  - repeat split; assumption.
  - unfold settled_nonce, tokenization_calls, readiness_calls. simpl.
    rewrite <- !app_assoc. reflexivity.
Qed.

(** The calls of a run of [gPay]: those of the tokenization, then either
    the bracketed settlement or the handling of the rejection. *)
Lemma gPay_emitted env action ti w :
  emitted (gPay env action ti) w
  = (emitted (tokenizePaymentDataRequest env ti) w
     ++ match fst (tokenizePaymentDataRequest env ti w) with
        | Normal nonce =>
            [SetProcessing true]
            ++ settlement_events env action ti nonce
            ++ [SetProcessing false]
        | Thrown e => rejection_events e
        end)%list.
Proof.
  destruct (tokenizePaymentDataRequest env ti w) as [[nonce|e] w1] eqn:Htok;
    destruct (tokenize_emitted env ti w w1 _ Htok) as [Hw1 _]; simpl.
  - apply emitted_spec.
    rewrite (gPay_after_nonce env action ti w nonce w1 Htok), Hw1.
    unfold extend. simpl. rewrite <- app_assoc. reflexivity.
  - apply emitted_spec.
    rewrite (gPay_after_rejection env action ti w e w1 Htok), Hw1.
    unfold extend. simpl. rewrite <- app_assoc. reflexivity.
Qed.

Lemma tokenize_run_inv env ti w :
  (exists a,
     provider_flow_succeeds env ti w a /\
     fst (tokenizePaymentDataRequest env ti w)
     = Normal (settled_nonce env a) /\
     emitted (tokenizePaymentDataRequest env ti) w
     = tokenization_calls env ti a) \/
  (exists e,
     fst (tokenizePaymentDataRequest env ti w) = Thrown e /\
     forallb is_tokenization_event
       (emitted (tokenizePaymentDataRequest env ti) w) = true /\
     flow_ordered (emitted (tokenizePaymentDataRequest env ti) w)).
Proof.
  destruct w as [slot tr].
  destruct (tokenize_inv env ti slot tr)
    as [[a [Hflow Hrun]]|[e [evs [Hrun [Hall Hord]]]]].
  - left. exists a. split; [exact Hflow|].
    split; [rewrite Hrun; reflexivity|].
    apply emitted_spec. rewrite Hrun. reflexivity.
  - right. exists e.
    assert (Hevs : emitted (tokenizePaymentDataRequest env ti)
                     {| googlePaymentInstance := slot; trace := tr |} = evs)
      by (apply emitted_spec; rewrite Hrun; reflexivity).
    rewrite Hevs. split; [rewrite Hrun; reflexivity|]. split; assumption.
Qed.

Lemma rejection_events_shape e :
  rejection_events e = [] \/
  rejection_events e = [SetMessage e variant_error None].
Proof.
  unfold rejection_events.
  destruct (get_property e "statusCode") as [statusCode|err];
    [destruct (strict_eq_string statusCode "CANCELED")|]; auto.
Qed.

(** X1. A nonce comes out of the tokenization only when every step of the
    provider flow succeeded: the adapter held a session, the request was
    built, the client constructed, the readiness answer was truthy, the
    sheet resolved and its response was parsed; the nonce is the one
    selected from that response. *)
Theorem nonce_requires_the_whole_flow env ti w nonce w1 :
  tokenizePaymentDataRequest env ti w = (Normal nonce, w1) ->
  exists a,
    provider_flow_succeeds env ti w a /\
    nonce = settled_nonce env a /\
    w1 = extend w (tokenization_calls env ti a).
Proof.
  intros Hrun. destruct w as [slot tr].
  destruct (tokenize_inv env ti slot tr)
    as [[a [Hflow Hok]]|[e [evs [Hko _]]]].
  - exists a. rewrite Hok in Hrun. inversion Hrun. auto.
  - rewrite Hko in Hrun. discriminate Hrun.
Qed.

Lemma nonce_requires_the_whole_flow_witness :
  exists a,
    provider_flow_succeeds Sample.production Sample.transaction
      Sample.initialised a /\
    "tokencc_bf_8x2p" = settled_nonce Sample.production a /\
    snd (tokenizePaymentDataRequest Sample.production Sample.transaction
           Sample.initialised)
    = extend Sample.initialised
        (tokenization_calls Sample.production Sample.transaction a).
Proof.
  apply (nonce_requires_the_whole_flow Sample.production Sample.transaction
           Sample.initialised "tokencc_bf_8x2p" _ eq_refl).
Defined.

(** X2. In every run of [gPay], whatever the collaborators answer, each
    step occurs at most as often as the one before it and the first at most
    once: request build, client construction, readiness check, payment
    sheet, response parsing, backend call, cache invalidation. *)
Theorem steps_never_run_ahead env action ti w :
  let evs := emitted (gPay env action ti) w in
  count is_invalidation evs <= count is_settlement evs /\
  count is_settlement evs <= count is_parse evs /\
  flow_ordered evs.
Proof.
  intros evs. subst evs. rewrite gPay_emitted.
  destruct (tokenize_run_inv env ti w)
    as [[a [_ [Hfst Hevs]]]|[e [Hfst [Hall Hord]]]];
    rewrite Hfst.
  - rewrite Hevs. unfold settlement_events, flow_ordered.
    destruct action;
      [destruct (makePayment env (settled_nonce env a) (totalPrice ti))
      |destruct (addPaymentMethod env "payment_method_nonce"
                   (settled_nonce env a) true)];
      cbv; repeat split; repeat constructor.
  - unfold flow_ordered in *. rewrite !count_app.
    rewrite (count_none is_tokenization_event is_invalidation),
            (count_none is_tokenization_event is_settlement);
      try exact Hall;
      try (intros [] Hev; (reflexivity || discriminate Hev)).
    destruct (rejection_events_shape e) as [-> | ->]; cbv [count filter
      is_invalidation is_settlement is_parse is_sheet is_readiness_check
      is_client_construction is_request_build length];
      rewrite ?Nat.add_0_r; repeat split; try apply Hord; lia.
Qed.

Lemma count_cons (p : Event -> bool) ev evs :
  count p (ev :: evs) = (if p ev then 1 else 0) + count p evs.
Proof. unfold count. simpl. destruct (p ev); reflexivity. Qed.

(** A list with a single event satisfying [p] splits around it in one way
    only. *)
Lemma single_match_split (p : Event -> bool) pre c post :
  count p pre = 0 -> count p post = 0 ->
  forall before ev after,
    (pre ++ c :: post)%list = (before ++ ev :: after)%list ->
    p ev = true ->
    before = pre /\ ev = c /\ after = post.
Proof.
  intros Hpre Hpost.
  induction pre as [|x pre IH]; intros before ev after Heq Hev.
  - destruct before as [|b before]; simpl in Heq.
    + inversion Heq. auto.
    + inversion Heq as [[Hc Hrest]]. rewrite Hrest in Hpost.
      rewrite count_app, count_cons, Hev in Hpost. lia.
  - rewrite count_cons in Hpre.
    destruct before as [|b before]; simpl in Heq.
    + inversion Heq as [[Hx Hrest]]. subst x. rewrite Hev in Hpre. lia.
    + inversion Heq as [[Hx Hrest]]. subst b.
      destruct (IH ltac:(destruct (p x); lia) before ev after Hrest Hev)
        as [-> [-> ->]].
      auto.
Qed.

Lemma settlement_events_split env action ti nonce :
  exists rest,
    settlement_events env action ti nonce
    = settlement_call action ti nonce :: rest /\
    count is_settlement rest = 0 /\
    count is_setMessage rest = 1.
Proof.
  unfold settlement_events, settlement_call. destruct action.
  - destruct (makePayment env nonce (totalPrice ti));
      eexists; repeat split; reflexivity.
  - destruct (addPaymentMethod env "payment_method_nonce" nonce true);
      eexists; repeat split; reflexivity.
Qed.

(** X3. Every run of [gPay] calls [setMessage] at most once, and every
    backend call is followed by a message: wherever a backend call stands
    in the run, no message comes before it and exactly one comes after
    it. *)
Theorem one_message_per_run env action ti w :
  let evs := emitted (gPay env action ti) w in
  count is_settlement evs <= count is_setMessage evs /\
  count is_setMessage evs <= 1 /\
  forall before call after,
    evs = (before ++ call :: after)%list ->
    is_settlement call = true ->
    count is_setMessage before = 0 /\ count is_setMessage after = 1.
Proof.
  intros evs. subst evs. rewrite gPay_emitted.
  destruct (tokenize_run_inv env ti w)
    as [[a [_ [Hfst Hevs]]]|[e [Hfst [Hall _]]]];
    rewrite Hfst.
  - rewrite Hevs.
    destruct (settlement_events_split env action ti (settled_nonce env a))
      as [rest [Hshape [Hsettled Hmessage]]].
    rewrite Hshape.
    assert (Hcall : is_settlement
                      (settlement_call action ti (settled_nonce env a))
                    = true) by (destruct action; reflexivity).
    assert (Hquiet : is_setMessage
                       (settlement_call action ti (settled_nonce env a))
                     = false) by (destruct action; reflexivity).
    split; [|split].
    + rewrite !count_app, !count_cons, Hcall, Hquiet, Hsettled, Hmessage.
      cbv. repeat constructor.
    + rewrite !count_app, !count_cons, Hquiet, Hmessage.
      cbv. repeat constructor.
    + intros before call after Heq Hsettle.
      replace (tokenization_calls env ti a
               ++ [SetProcessing true]
               ++ (settlement_call action ti (settled_nonce env a) :: rest)
               ++ [SetProcessing false])%list
        with ((tokenization_calls env ti a ++ [SetProcessing true])
              ++ settlement_call action ti (settled_nonce env a)
                 :: (rest ++ [SetProcessing false]))%list in Heq
        by (rewrite <- app_assoc; reflexivity).
      assert (Hpre : count is_settlement
                       (tokenization_calls env ti a ++ [SetProcessing true])
                     = 0) by reflexivity.
      assert (Hpost : count is_settlement (rest ++ [SetProcessing false])
                      = 0)
        by (rewrite count_app, Hsettled; reflexivity).
      destruct (single_match_split is_settlement _ _ _ Hpre Hpost
                  before call after Heq Hsettle) as [-> [_ ->]].
      split; [reflexivity|].
      rewrite count_app, Hmessage. reflexivity.
  - assert (Hnone : count is_settlement
                      (emitted (tokenizePaymentDataRequest env ti) w
                       ++ rejection_events e) = 0).
    { rewrite count_app,
        (count_none is_tokenization_event is_settlement);
        try exact Hall;
        try (intros [] Hev; (reflexivity || discriminate Hev)).
      destruct (rejection_events_shape e) as [-> | ->]; reflexivity. }
    split; [|split].
    + rewrite Hnone. apply Nat.le_0_l.
    + rewrite count_app,
        (count_none is_tokenization_event is_setMessage);
        try exact Hall;
        try (intros [] Hev; (reflexivity || discriminate Hev)).
      destruct (rejection_events_shape e) as [-> | ->]; cbv; lia.
    + intros before call after Heq Hsettle. exfalso.
      rewrite Heq, count_app, count_cons, Hsettle in Hnone. lia.
Qed.

Lemma one_message_per_run_witness :
  count is_setMessage
    (tokenization_calls Sample.production Sample.transaction sample_answers
     ++ [SetProcessing true]) = 0 /\
  count is_setMessage
    [ InvalidateQueries "account-billing-payments";
      SetMessage
        (JsString "Payment for $10.00 successfully submitted with Google Pay")
        variant_success (Some [ {| title := "Notice"; detail := "Pending" |} ]);
      SetProcessing false ] = 1.
Proof.
  apply (proj2 (proj2 (one_message_per_run Sample.production
                         one_time_payment Sample.transaction
                         Sample.initialised))
           (tokenization_calls Sample.production Sample.transaction
              sample_answers ++ [SetProcessing true])%list
           (MakePayment "tokencc_bf_8x2p" (Some "10.00"))
           [ InvalidateQueries "account-billing-payments";
             SetMessage
               (JsString
                  "Payment for $10.00 successfully submitted with Google Pay")
               variant_success
               (Some [ {| title := "Notice"; detail := "Pending" |} ]);
             SetProcessing false ]);
    reflexivity.
Defined.

(** X4. No run of [gPay] touches the module-level session: only the
    initialisation writes it. *)
Theorem gPay_keeps_the_session env action ti w :
  googlePaymentInstance (snd (gPay env action ti w))
  = googlePaymentInstance w.
Proof.
  destruct (tokenizePaymentDataRequest env ti w) as [[nonce|e] w1] eqn:Htok;
    destruct (tokenize_emitted env ti w w1 _ Htok) as [Hw1 _].
  - rewrite (gPay_after_nonce env action ti w nonce w1 Htok), Hw1.
    reflexivity.
  - rewrite (gPay_after_rejection env action ti w e w1 Htok), Hw1.
    reflexivity.
Qed.

(** X5. Unless a non-empty merchant id is configured and the environment
    is production, no backend call of any run carries a nonce other than
    the literal ["fake-android-pay-nonce"]. *)
Theorem sandbox_never_settles_a_real_nonce env action ti w ev :
  ~ production_configured env ->
  In ev (emitted (gPay env action ti) w) ->
  is_settlement ev = true ->
  settlement_nonce ev = Some "fake-android-pay-nonce".
Proof.
  intros Hsandbox Hin Hsettle. rewrite gPay_emitted in Hin.
  assert (Hfake : forall a, settled_nonce env a = "fake-android-pay-nonce").
  { intros a. unfold settled_nonce, select_nonce.
    destruct (Boolean_opt (GPAY_MERCHANT_ID env)
              && opt_strict_eq (GPAY_CLIENT_ENV env) "PRODUCTION") eqn:Hsel.
    - exfalso. apply Hsandbox, production_configured_iff, Hsel.
    - reflexivity. }
  destruct (tokenize_run_inv env ti w)
    as [[a [_ [Hfst Hevs]]]|[e [Hfst [Hall _]]]];
    rewrite Hfst in Hin; apply in_app_or in Hin as [Hin|Hin].
  - rewrite Hevs in Hin. simpl in Hin.
    repeat (destruct Hin as [<-|Hin]; [discriminate Hsettle|]).
    destruct Hin.
  - rewrite Hfake in Hin. unfold settlement_events in Hin.
    destruct action;
      [destruct (makePayment env "fake-android-pay-nonce" (totalPrice ti))
      |destruct (addPaymentMethod env "payment_method_nonce"
                   "fake-android-pay-nonce" true)];
      simpl in Hin;
      repeat (destruct Hin as [<-|Hin];
              [reflexivity || discriminate Hsettle|]);
      destruct Hin.
  - rewrite forallb_forall in Hall. specialize (Hall ev Hin).
    destruct ev; discriminate.
  - destruct (rejection_events_shape e) as [Hnone|Hone];
      rewrite ?Hnone, ?Hone in Hin; simpl in Hin.
    + destruct Hin.
    + destruct Hin as [<-|[]]. discriminate Hsettle.
Qed.

Lemma sandbox_never_settles_a_real_nonce_witness :
  settlement_nonce (MakePayment "fake-android-pay-nonce" (Some "10.00"))
  = Some "fake-android-pay-nonce".
Proof.
  apply (sandbox_never_settles_a_real_nonce
           (Sample.with_config (Some "BCR2DN4T") (Some "TEST")
              Sample.production)
           one_time_payment Sample.transaction Sample.initialised
           (MakePayment "fake-android-pay-nonce" (Some "10.00"))).
  - intros [_ Henv]. discriminate Henv.
  - vm_compute. do 6 right. left. reflexivity.
  - reflexivity.
Defined.

(** X6. When Braintree fails to build the payment data request, whatever
    the error is (a canceled status included), the error is reported to the
    exception tracker and the user is shown the fixed text
    ["Unable to open Google Pay."] with error severity; no Google Pay client
    is constructed and nothing else happens. *)
Theorem failed_request_build_shows_fixed_message
    env action ti w instance e :
  googlePaymentInstance w = Some instance ->
  createPaymentDataRequest env instance (merchantInfo env) ti
    ["PAYMENT_AUTHORIZATION"] = Failed e ->
  fst (gPay env action ti w) = Normal tt /\
  emitted (gPay env action ti) w
  = [ CreatePaymentDataRequest instance (merchantInfo env) ti
        ["PAYMENT_AUTHORIZATION"];
      ReportException e "Unable to open Google Pay.";
      SetMessage (JsString "Unable to open Google Pay.") variant_error None ].
Proof.
  intros Hslot Hreq. destruct w as [slot tr]. simpl in Hslot. subst slot.
  assert (Htok : tokenizePaymentDataRequest env ti
                   {| googlePaymentInstance := Some instance; trace := tr |}
                 = (Thrown (JsString "Unable to open Google Pay."),
                    {| googlePaymentInstance := Some instance;
                       trace := tr
                                ++ [ CreatePaymentDataRequest instance
                                       (merchantInfo env) ti
                                       ["PAYMENT_AUTHORIZATION"];
                                     ReportException e
                                       "Unable to open Google Pay." ] |})).
  { js_unfold. rewrite Hreq. js_unfold. rewrite <- !app_assoc. reflexivity. }
  pose proof (gPay_after_rejection env action ti _ _ _ Htok) as Hrun.
  split.
  - rewrite Hrun. reflexivity.
  - apply emitted_spec. rewrite Hrun. unfold extend. simpl.
    rewrite <- app_assoc. reflexivity.
Qed.

Lemma failed_request_build_shows_fixed_message_witness :
  emitted (gPay (Sample.with_request (Failed Sample.canceled)
                   Sample.production)
             one_time_payment Sample.transaction) Sample.initialised
  = [ CreatePaymentDataRequest Sample.instance
        (merchantInfo Sample.production) Sample.transaction
        ["PAYMENT_AUTHORIZATION"];
      ReportException Sample.canceled "Unable to open Google Pay.";
      SetMessage (JsString "Unable to open Google Pay.") variant_error None ].
Proof.
  apply (failed_request_build_shows_fixed_message
           (Sample.with_request (Failed Sample.canceled) Sample.production)
           one_time_payment Sample.transaction Sample.initialised
           Sample.instance Sample.canceled eq_refl eq_refl).
Defined.

(** X7. On an adapter that holds no session, [gPay] asks nothing of the
    SDK or the backend: it reports the failed access to the exception
    tracker and shows ["Unable to open Google Pay."] with error severity. *)
Theorem uninitialised_adapter_shows_fixed_message env action ti w :
  googlePaymentInstance w = None ->
  fst (gPay env action ti w) = Normal tt /\
  emitted (gPay env action ti) w
  = [ ReportException
        (TypeError "Cannot read properties of undefined (reading 'createPaymentDataRequest')")
        "Unable to open Google Pay.";
      SetMessage (JsString "Unable to open Google Pay.") variant_error None ].
Proof.
  intros Hslot. destruct w as [slot tr]. simpl in Hslot. subst slot.
  split.
  - reflexivity.
  - apply emitted_spec. js_unfold. simpl. rewrite <- !app_assoc.
    reflexivity.
Qed.

Lemma uninitialised_adapter_shows_fixed_message_witness :
  fst (gPay Sample.production add_recurring_payment Sample.unpriced
         Sample.fresh) = Normal tt.
Proof.
  apply (uninitialised_adapter_shows_fixed_message Sample.production
           add_recurring_payment Sample.unpriced Sample.fresh eq_refl).
Defined.

(** X8. When the response of the payment sheet cannot be parsed and the
    error is not a canceled one, the error value itself is handed to
    [setMessage] with error severity; it is not reported to the exception
    tracker, [setProcessing] is not called and no backend call is made. *)
Theorem failed_parse_shows_the_error
    env action ti w instance request client ready sheet e statusCode :
  sheet_shown env ti w instance request client ready ->
  loadPaymentData env client request = Resolved sheet ->
  parseResponse env instance sheet = Failed e ->
  get_property e "statusCode" = inl statusCode ->
  strict_eq_string statusCode "CANCELED" = false ->
  fst (gPay env action ti w) = Normal tt /\
  emitted (gPay env action ti) w
  = (readiness_calls env ti instance request client
     ++ [ LoadPaymentData client request;
          ParseResponse instance sheet;
          SetMessage e variant_error None ])%list.
Proof.
  intros [[Hslot [Hreq Hclient]] [Hready Htruthy]] Hsheet Hparse Hcode Hother.
  destruct w as [slot tr]. simpl in Hslot. subst slot.
  assert (Htok : tokenizePaymentDataRequest env ti
                   {| googlePaymentInstance := Some instance; trace := tr |}
                 = (Thrown e,
                    {| googlePaymentInstance := Some instance;
                       trace := tr
                                ++ readiness_calls env ti instance request
                                     client
                                ++ [ LoadPaymentData client request;
                                     ParseResponse instance sheet ] |})).
  { js_unfold. rewrite Hreq. js_unfold. rewrite Hclient. js_unfold.
    rewrite Hready. js_unfold. rewrite Htruthy. js_unfold.
    rewrite Hsheet. js_unfold. rewrite Hparse. js_unfold.
    unfold readiness_calls. rewrite <- !app_assoc. reflexivity. }
  pose proof (gPay_after_rejection env action ti _ _ _ Htok) as Hrun.
  unfold rejection_events in Hrun. rewrite Hcode, Hother in Hrun.
  split.
  - rewrite Hrun. reflexivity.
  - apply emitted_spec. rewrite Hrun. unfold extend. simpl.
    rewrite <- !app_assoc. reflexivity.
Qed.

Lemma sample_sheet_shown_with_parse answer :
  sheet_shown (Sample.with_parse answer Sample.production)
    Sample.transaction Sample.initialised
    Sample.instance Sample.request Sample.payClient (JsBool true).
Proof. repeat split; reflexivity. Defined.

Lemma failed_parse_shows_the_error_witness :
  fst (gPay (Sample.with_parse (Failed Sample.declined) Sample.production)
         one_time_payment Sample.transaction Sample.initialised)
  = Normal tt.
Proof.
  apply (failed_parse_shows_the_error
           (Sample.with_parse (Failed Sample.declined) Sample.production)
           one_time_payment Sample.transaction Sample.initialised
           Sample.instance Sample.request Sample.payClient (JsBool true)
           Sample.sheet Sample.declined JsUndefined
           (sample_sheet_shown_with_parse _) eq_refl eq_refl eq_refl eq_refl).
Defined.

(** X9. [gPay] itself rejects exactly when the tokenization rejects with
    [undefined] or [null]: reading [statusCode] off that value throws inside
    the catch block, and nothing is shown to the user.  In every other run
    [gPay] ends normally. *)
Theorem gPay_rejects_only_on_nullish_rejection env action ti w :
  match fst (tokenizePaymentDataRequest env ti w) with
  | Thrown JsUndefined =>
      fst (gPay env action ti w)
      = Thrown (TypeError "Cannot read properties of undefined (reading 'statusCode')")
      /\ count is_setMessage (emitted (gPay env action ti) w) = 0
  | Thrown JsNull =>
      fst (gPay env action ti w)
      = Thrown (TypeError "Cannot read properties of null (reading 'statusCode')")
      /\ count is_setMessage (emitted (gPay env action ti) w) = 0
  | _ => fst (gPay env action ti w) = Normal tt
  end.
Proof.
  pose proof (gPay_emitted env action ti w) as Hevs.
  destruct (tokenizePaymentDataRequest env ti w) as [[nonce|e] w1] eqn:Htok;
    destruct (tokenize_emitted env ti w w1 _ Htok) as [_ Hall];
    simpl in *.
  - rewrite (gPay_after_nonce env action ti w nonce w1 Htok). reflexivity.
  - rewrite (gPay_after_rejection env action ti w e w1 Htok).
    assert (Hquiet : count is_setMessage
                       (emitted (tokenizePaymentDataRequest env ti) w) = 0).
    { apply (count_none is_tokenization_event); [|exact Hall].
      intros [] Hev; (reflexivity || discriminate Hev). }
    destruct e; simpl; try reflexivity;
      (split; [reflexivity|]);
      rewrite Hevs, count_app, Hquiet; reflexivity.
Qed.

(** X10. When the transaction carries no total price and a one-time
    payment goes through, the charge is sent with an undefined amount and
    the success message reads ["Payment for $undefined ..."]. *)
Theorem unpriced_payment_charges_undefined env ti w a response :
  totalPrice ti = None ->
  provider_flow_succeeds env ti w a ->
  makePayment env (settled_nonce env a) None = Resolved response ->
  let evs := emitted (gPay env one_time_payment ti) w in
  filter is_settlement evs = [MakePayment (settled_nonce env a) None] /\
  filter is_setMessage evs
  = [SetMessage
       (JsString
          "Payment for $undefined successfully submitted with Google Pay")
       variant_success (warnings response)].
Proof.
  intros Hprice Hflow Hcharge evs.
  destruct (gPay_after_provider_flow env one_time_payment ti w a Hflow)
    as [_ Hevs].
  fold evs in Hevs. rewrite Hevs. unfold settlement_events.
  rewrite Hprice, Hcharge. split; reflexivity.
Qed.

Lemma unpriced_flow_succeeds :
  provider_flow_succeeds Sample.production Sample.unpriced
    Sample.initialised sample_answers.
Proof. repeat split; reflexivity. Defined.

Lemma unpriced_payment_charges_undefined_witness :
  filter is_settlement
    (emitted (gPay Sample.production one_time_payment Sample.unpriced)
       Sample.initialised)
  = [MakePayment "tokencc_bf_8x2p" None].
Proof.
  apply (unpriced_payment_charges_undefined Sample.production
           Sample.unpriced Sample.initialised sample_answers Sample.response
           eq_refl unpriced_flow_succeeds eq_refl).
Defined.

(** X11. After an initialisation in which both steps resolve, whatever
    session the adapter held before, the next tokenization builds its
    request on the session just stored, with the module's merchant info and
    the payment-authorization callback intent. *)
Theorem tokenization_uses_the_latest_session
    env client_token ti w handle session :
  braintree_client_create env client_token = Resolved handle ->
  braintree_googlePayment_create env handle 2 (GPAY_MERCHANT_ID env)
    = Resolved session ->
  let w' := snd (initGooglePaymentInstance env client_token w) in
  exists rest,
    emitted (tokenizePaymentDataRequest env ti) w'
    = CreatePaymentDataRequest session (merchantInfo env) ti
        ["PAYMENT_AUTHORIZATION"] :: rest.
Proof.
  intros Hhandle Hsession w'. subst w'.
  rewrite init_run, Hhandle, Hsession. simpl.
  set (tr := (trace w ++ _)%list).
  assert (Hfirst :
            exists rest,
              trace (snd (tokenizePaymentDataRequest env ti
                            {| googlePaymentInstance := Some session;
                               trace := tr |}))
              = (tr ++ CreatePaymentDataRequest session (merchantInfo env)
                         ti ["PAYMENT_AUTHORIZATION"] :: rest)%list).
  { js_unfold.
    destruct (createPaymentDataRequest env session (merchantInfo env) ti
                ["PAYMENT_AUTHORIZATION"]) as [request|e]; js_unfold.
    2:{ eexists. rewrite <- ?app_assoc. reflexivity. }
    destruct (new_PaymentsClient env (clientOptions env)) as [client|e];
      js_unfold.
    2:{ eexists. rewrite <- ?app_assoc. reflexivity. }
    destruct (isReadyToPay env client 2 0 (allowedPaymentMethods request))
      as [ready|e]; js_unfold.
    2:{ eexists. rewrite <- ?app_assoc. reflexivity. }
    destruct (truthy ready); js_unfold.
    2:{ eexists. rewrite <- ?app_assoc. reflexivity. }
    destruct (loadPaymentData env client request) as [sheet|e]; js_unfold.
    2:{ eexists. rewrite <- ?app_assoc. reflexivity. }
    destruct (parseResponse env session sheet) as [payload|e]; js_unfold;
      eexists; rewrite <- ?app_assoc; reflexivity. }
  destruct Hfirst as [rest Hrest]. exists rest.
  apply emitted_spec. exact Hrest.
Qed.

Lemma tokenization_uses_the_latest_session_witness :
  exists rest,
    emitted (tokenizePaymentDataRequest Sample.expiring Sample.transaction)
      (snd (initGooglePaymentInstance Sample.expiring "valid"
              Sample.fresh))
    = CreatePaymentDataRequest Sample.instance
        (merchantInfo Sample.expiring) Sample.transaction
        ["PAYMENT_AUTHORIZATION"] :: rest.
Proof.
  apply (tokenization_uses_the_latest_session Sample.expiring "valid"
           Sample.transaction Sample.fresh Sample.client Sample.instance
           eq_refl eq_refl).
Defined.

(** X12. The initialisation never rejects: every provider error ends up in
    the answer.  It asks for the client handle first, once, with the given
    token; it asks for the session at most once; and its answer carries
    [error: true] exactly when it reported an exception. *)
Theorem init_never_rejects env client_token w :
  let evs := emitted (initGooglePaymentInstance env client_token) w in
  exists failed,
    fst (initGooglePaymentInstance env client_token w)
    = Normal {| error := failed |} /\
    hd_error evs = Some (ClientCreate client_token) /\
    count is_client_create evs = 1 /\
    count is_session_create evs <= 1 /\
    count is_report evs = (if failed then 1 else 0).
Proof.
  intros evs.
  assert (Hevs : evs
                 = skipn (length (trace w))
                     (trace (snd (initGooglePaymentInstance env
                                    client_token w))))
    by reflexivity.
  rewrite init_run in *.
  destruct (braintree_client_create env client_token) as [handle|e];
    [destruct (braintree_googlePayment_create env handle 2
                 (GPAY_MERCHANT_ID env)) as [session|e]|];
    simpl in Hevs;
    rewrite skipn_app, skipn_all, Nat.sub_diag in Hevs;
    rewrite Hevs; eexists; (split; [reflexivity|]);
    cbv; repeat split; repeat constructor.
Qed.

(** * Properties of the database creation form *)

Import DatabaseCreate.

(** ** Grouping *)

Lemma lookup_group_insert {A : Type} (k new : string) (x : A) groups :
  lookup_group k (group_insert new x groups)
  = if new =? k
    then Some (match lookup_group k groups with
               | Some g => g ++ [x]
               | None => [x]
               end)%list
    else lookup_group k groups.
Proof.
  induction groups as [|[k0 xs] rest IH]; simpl.
  - destruct (new =? k); reflexivity.
  - destruct (k0 =? new) eqn:Hsame; simpl.
    + apply String.eqb_eq in Hsame. subst k0.
      destruct (new =? k); reflexivity.
    + rewrite IH.
      destruct (k0 =? k) eqn:Hk0, (new =? k) eqn:Hnew; try reflexivity.
      apply String.eqb_eq in Hk0, Hnew. subst.
      rewrite String.eqb_refl in Hsame. discriminate Hsame.
Qed.

Lemma lookup_group_fold {A : Type} (key : A -> string) (k : string) xs :
  forall acc,
    lookup_group k
      (fold_left (fun acc x => group_insert (key x) x acc) xs acc)
    = match lookup_group k acc, filter (fun x => key x =? k) xs with
      | Some g, l => Some (g ++ l)%list
      | None, [] => None
      | None, l => Some l
      end.
Proof.
  induction xs as [|x xs IH]; intros acc; simpl.
  - destruct (lookup_group k acc); [rewrite app_nil_r|]; reflexivity.
  - rewrite IH, lookup_group_insert.
    destruct (key x =? k).
    + destruct (lookup_group k acc); [rewrite <- app_assoc|]; reflexivity.
    + reflexivity.
Qed.

Lemma lookup_groupBy {A : Type} (key : A -> string) (k : string) xs :
  lookup_group k (groupBy key xs)
  = match filter (fun x => key x =? k) xs with
    | [] => None
    | l => Some l
    end.
Proof. unfold groupBy. rewrite lookup_group_fold. reflexivity. Qed.

(** The fold over the grouped versions, label by label. *)
Lemma getEngineOptions_unfold versions :
  getEngineOptions versions
  = flat_map
      (fun thisGroup =>
         match filter (fun v => engineGroup v =? thisGroup) versions with
         | [] => []
         | group =>
             [ {| label := thisGroup; options := map toOption group |} ]
         end)
      groupOrder.
Proof.
  unfold getEngineOptions. cbv [groupOrder fold_left flat_map].
  rewrite !lookup_groupBy.
  repeat match goal with
         | |- context [filter ?p versions] => destruct (filter p versions)
         end;
    reflexivity.
Qed.


Lemma engineGroup_in_order v : In (engineGroup v) groupOrder.
Proof.
  unfold engineGroup, groupOrder.
  destruct (regex_i_match "mysql" (engine v)); [simpl; auto|].
  destruct (regex_i_match "postgresql" (engine v)); [simpl; auto|].
  destruct (regex_i_match "mongodb" (engine v)); [simpl; auto|].
  destruct (regex_i_match "redis" (engine v)); simpl; auto 6.
Qed.

Lemma groupOrder_NoDup : NoDup groupOrder.
Proof.
  unfold groupOrder.
  repeat (constructor; [simpl; intuition discriminate|]). constructor.
Qed.

Section Partition.

Context {A : Type} (key : A -> string).

Lemma filter_head (p : A -> bool) x xs :
  filter p (x :: xs) = if p x then x :: filter p xs else filter p xs.
Proof. reflexivity. Qed.

Lemma flat_map_head {B : Type} (f : string -> list B) g order :
  flat_map f (g :: order) = (f g ++ flat_map f order)%list.
Proof. reflexivity. Qed.

Lemma filters_skip (x : A) xs order :
  ~ In (key x) order ->
  flat_map (fun g => filter (fun v => key v =? g) (x :: xs)) order
  = flat_map (fun g => filter (fun v => key v =? g) xs) order.
Proof.
  induction order as [|g order IH]; intros Hnotin.
  - reflexivity.
  - rewrite !flat_map_head, filter_head.
    destruct (key x =? g) eqn:Hg.
    + exfalso. apply Hnotin. left. symmetry. apply String.eqb_eq, Hg.
    + rewrite IH; [reflexivity|]. intros Hin. apply Hnotin. right. exact Hin.
Qed.

Lemma filters_take (x : A) xs order :
  NoDup order -> In (key x) order ->
  Permutation
    (flat_map (fun g => filter (fun v => key v =? g) (x :: xs)) order)
    (x :: flat_map (fun g => filter (fun v => key v =? g) xs) order).
Proof.
  induction order as [|g order IH]; intros Hnodup Hin.
  - destruct Hin.
  - inversion Hnodup as [|? ? Hfresh Hrest]; subst.
    rewrite !flat_map_head, filter_head.
    destruct (key x =? g) eqn:Hg.
    + apply String.eqb_eq in Hg. subst g.
      rewrite filters_skip by exact Hfresh. reflexivity.
    + destruct Hin as [Heq|Hin].
      * subst g. rewrite String.eqb_refl in Hg. discriminate Hg.
      * rewrite (IH Hrest Hin). symmetry. apply Permutation_middle.
Qed.

Lemma filters_partition xs order :
  NoDup order -> (forall x, In (key x) order) ->
  Permutation
    (flat_map (fun g => filter (fun v => key v =? g) xs) order) xs.
Proof.
  intros Hnodup Hall.
  induction xs as [|x xs IH].
  - clear Hnodup Hall.
    induction order as [|g order IHo]; simpl; [constructor | exact IHo].
  - rewrite filters_take by auto. constructor. exact IH.
Qed.

End Partition.

Lemma options_of_optionsByLabel versions order :
  flat_map options
    (flat_map
       (fun thisGroup =>
          match filter (fun v => engineGroup v =? thisGroup) versions with
          | [] => []
          | group =>
              [ {| label := thisGroup; options := map toOption group |} ]
          end) order)
  = map toOption
      (flat_map (fun g => filter (fun v => engineGroup v =? g) versions)
         order).
Proof.
  induction order as [|g order IH].
  - reflexivity.
  - rewrite !flat_map_head, flat_map_app, map_app, IH.
    destruct (filter (fun v => engineGroup v =? g) versions); simpl;
      rewrite ?app_nil_r; reflexivity.
Qed.

(** X14. Every version is offered exactly once: the options of all groups
    together are the versions given, each turned into an option, up to
    order. *)
Theorem getEngineOptions_offers_each_version_once versions :
  Permutation (flat_map options (getEngineOptions versions))
    (map toOption versions).
Proof.
  rewrite getEngineOptions_unfold.
  rewrite options_of_optionsByLabel.
  apply Permutation_map, filters_partition.
  - exact groupOrder_NoDup.
  - exact engineGroup_in_order.
Qed.

Lemma existsb_filter {A : Type} (p : A -> bool) xs :
  existsb p xs = match filter p xs with [] => false | _ => true end.
Proof.
  induction xs as [|x xs IH]; simpl; [reflexivity|].
  destruct (p x); [reflexivity | exact IH].
Qed.

(** X15. The labels of the groups are those of the fixed order that some
    version belongs to, in that order (so each occurs at most once), and no
    group comes without options. *)
Theorem getEngineOptions_labels versions :
  map label (getEngineOptions versions)
  = filter (fun g => existsb (fun v => engineGroup v =? g) versions)
      groupOrder /\
  Forall (fun g => options g <> []) (getEngineOptions versions).
Proof.
  rewrite getEngineOptions_unfold.
  induction groupOrder as [|g order [IHlabels IHoptions]].
  - split; [reflexivity | constructor].
  - rewrite flat_map_head, map_app, filter_head, existsb_filter, IHlabels.
    split.
    + destruct (filter (fun v => engineGroup v =? g) versions); reflexivity.
    + apply Forall_app. split; [|exact IHoptions].
      destruct (filter (fun v => engineGroup v =? g) versions);
        constructor; [discriminate | constructor].
Qed.

Lemma engineIcons_mysql name :
  engineIcons name = flag_MySQLIcon <-> name = "mysql".
Proof.
  unfold engineIcons. destruct (name =? "mysql") eqn:Hname.
  - apply String.eqb_eq in Hname. tauto.
  - apply String.eqb_neq in Hname.
    destruct (existsb (String.eqb name) Object_prototype_names);
      split; intros H; (discriminate H || contradiction).
Qed.

Lemma option_origin versions g o :
  In g (getEngineOptions versions) ->
  In o (options g) ->
  exists v, o = toOption v /\ In v versions /\ engineGroup v = label g.
Proof.
  rewrite getEngineOptions_unfold.
  intros Hg Ho. apply in_flat_map in Hg as [thisGroup [_ Hg]].
  destruct (filter (fun v => engineGroup v =? thisGroup) versions)
    as [|v0 group] eqn:Hfilter; [destruct Hg|].
  destruct Hg as [<-|[]]. cbn [options label] in Ho |- *.
  rewrite <- Hfilter in Ho.
  apply in_map_iff in Ho as [v [<- Hv]].
  apply filter_In in Hv as [Hin Hgroup].
  exists v. repeat split; [exact Hin | apply String.eqb_eq, Hgroup].
Qed.

(** X16. Every option of every group comes from one of the versions given
    and sits under the label of its engine; its value is
    [engine/version], and it carries the MySQL icon exactly when its engine
    is literally ["mysql"]. *)
Theorem getEngineOptions_options_are_sound versions g o :
  In g (getEngineOptions versions) ->
  In o (options g) ->
  In (source o) versions /\
  engineGroup (source o) = label g /\
  value o = engine (source o) ++ "/" ++ version (source o) /\
  (flag o = flag_MySQLIcon <-> engine (source o) = "mysql").
Proof.
  intros Hg Ho.
  destruct (option_origin versions g o Hg Ho) as [v [-> [Hin Hgroup]]].
  simpl. repeat split; try assumption; apply engineIcons_mysql.
Qed.

Lemma getEngineOptions_options_are_sound_witness :
  let mysql8 := {| engine := "mysql"; version := "8.0.26";
                   versionFields := [] |} in
  let group := {| label := "MySQL"; options := [toOption mysql8] |} in
  In (source (toOption mysql8)) [mysql8] /\
  engineGroup (source (toOption mysql8)) = label group /\
  value (toOption mysql8) = "mysql/8.0.26" /\
  (flag (toOption mysql8) = flag_MySQLIcon
   <-> engine (source (toOption mysql8)) = "mysql").
Proof.
  apply (getEngineOptions_options_are_sound
           [ {| engine := "mysql"; version := "8.0.26";
                versionFields := [] |} ]
           {| label := "MySQL";
              options := [toOption {| engine := "mysql"; version := "8.0.26";
                                      versionFields := [] |}] |}
           (toOption {| engine := "mysql"; version := "8.0.26";
                        versionFields := [] |})).
  - left. reflexivity.
  - left. reflexivity.
Defined.

(** ** Matching engines *)

Lemma matches_here_spec pattern : forall s,
  matches_here pattern s = true <->
  exists mid post,
    s = mid ++ post /\ fold_case mid = fold_case pattern.
Proof.
  induction pattern as [|p pattern IH]; intros s; simpl.
  - split; [|reflexivity]. intros _. exists "", s. split; reflexivity.
  - destruct s as [|c s].
    + split; [discriminate|].
      intros [mid [post [Hs Hfold]]].
      destruct mid; [discriminate Hfold | discriminate Hs].
    + rewrite andb_true_iff, Ascii.eqb_eq, IH. split.
      * intros [Hc [mid [post [Hs Hfold]]]].
        exists (String c mid), post. simpl. rewrite Hs, Hfold, Hc.
        split; reflexivity.
      * intros [mid [post [Hs Hfold]]].
        destruct mid as [|m mid]; [discriminate Hfold|].
        simpl in Hs, Hfold. inversion Hs. inversion Hfold. subst.
        split; [reflexivity|]. exists mid, post. split; auto.
Qed.

Lemma regex_i_match_spec pattern s :
  regex_i_match pattern s = true <->
  exists pre mid post,
    s = pre ++ mid ++ post /\ fold_case mid = fold_case pattern.
Proof.
  induction s as [|c s IH]; simpl; rewrite orb_true_iff, matches_here_spec.
  - split.
    + intros [[mid [post H]]|Hfalse]; [|discriminate Hfalse].
      exists "", mid, post. exact H.
    + intros [pre [mid [post [Hs Hfold]]]]. left.
      destruct pre; [|discriminate Hs]. exists mid, post. auto.
  - rewrite IH. split.
    + intros [[mid [post H]]|[pre [mid [post [Hs Hfold]]]]].
      * exists "", mid, post. exact H.
      * exists (String c pre), mid, post. simpl. rewrite Hs. auto.
    + intros [pre [mid [post [Hs Hfold]]]].
      destruct pre as [|c' pre].
      * left. exists mid, post. auto.
      * right. simpl in Hs. inversion Hs. subst.
        exists pre, mid, post. auto.
Qed.

(** X17. A version is listed under MySQL exactly when its engine contains
    the letters [mysql] in a row, in any mix of upper and lower case, even
    when it names another engine as well. *)
Theorem mysql_group_ignores_case versions v :
  In v versions ->
  (exists g,
     In g (getEngineOptions versions) /\
     label g = "MySQL" /\ In (toOption v) (options g)) <->
  (exists pre mid post,
     engine v = pre ++ mid ++ post /\ fold_case mid = "MYSQL").
Proof.
  intros Hin.
  change "MYSQL" with (fold_case "mysql").
  rewrite <- regex_i_match_spec. split.
  - intros [g [Hg [Hlabel Ho]]].
    destruct (option_origin versions g _ Hg Ho) as [v' [Heq [_ Hgroup]]].
    assert (Hsame : v' = v) by (inversion Heq; reflexivity).
    subst v'. rewrite Hlabel in Hgroup. unfold engineGroup in Hgroup.
    destruct (regex_i_match "mysql" (engine v)); [reflexivity|].
    destruct (regex_i_match "postgresql" (engine v));
      [discriminate Hgroup|].
    destruct (regex_i_match "mongodb" (engine v)); [discriminate Hgroup|].
    destruct (regex_i_match "redis" (engine v)); discriminate Hgroup.
  - intros Hmatch.
    assert (Hv : In v (filter (fun v => engineGroup v =? "MySQL") versions)).
    { apply filter_In. split; [exact Hin|].
      unfold engineGroup. rewrite Hmatch. reflexivity. }
    exists {| label := "MySQL";
              options := map toOption
                           (filter (fun v => engineGroup v =? "MySQL")
                              versions) |}.
    split; [|split; [reflexivity | apply in_map, Hv]].
    rewrite getEngineOptions_unfold.
    apply in_flat_map. exists "MySQL". split; [left; reflexivity|].
    destruct (filter (fun v => engineGroup v =? "MySQL") versions);
      [destruct Hv | left; reflexivity].
Qed.

Lemma mysql_group_ignores_case_witness :
  let upper := {| engine := "MySQL"; version := "5.7";
                  versionFields := [] |} in
  (exists g,
     In g (getEngineOptions [upper]) /\
     label g = "MySQL" /\ In (toOption upper) (options g)) <->
  (exists pre mid post,
     engine upper = pre ++ mid ++ post /\ fold_case mid = "MYSQL").
Proof.
  apply (mysql_group_ignores_case
           [ {| engine := "MySQL"; version := "5.7"; versionFields := [] |} ]
           {| engine := "MySQL"; version := "5.7"; versionFields := [] |}).
  left. reflexivity.
Defined.

(** ** Submitting the form *)

Lemma has_error_spec ip :
  Form.has_error ip = true <->
  exists message, Form.error ip = Some message /\ message <> "".
Proof.
  unfold Form.has_error, Boolean_opt.
  destruct (Form.error ip) as [message|]; simpl.
  - rewrite negb_true_iff, String.eqb_neq. split.
    + intros Hne. exists message. auto.
    + intros [m [Heq Hne]]. inversion Heq. subst. exact Hne.
  - split; [discriminate|]. intros [m [Heq _]]. discriminate Heq.
Qed.

(** X18. [submitForm] does nothing at all (no request, no change of the
    submitting flag or of the error shown) exactly when some entry of the
    allow list carries a non-empty error; an absent or empty error does not
    hold a submission back. *)
Theorem submitForm_is_held_back_by_ip_errors createDatabase values :
  (exists ip message,
     In ip (Form.allow_list values) /\
     Form.error ip = Some message /\ message <> "") <->
  Form.submitForm createDatabase values = [].
Proof.
  unfold Form.submitForm.
  destruct (existsb Form.has_error (Form.allow_list values)) eqn:Hsome.
  - split; [reflexivity|]. intros _.
    apply existsb_exists in Hsome as [ip [Hin Herr]].
    apply has_error_spec in Herr as [message Hmessage].
    exists ip, message. tauto.
  - split; [|discriminate].
    intros [ip [message [Hin Hmessage]]].
    assert (Htrue : existsb Form.has_error (Form.allow_list values) = true).
    { apply existsb_exists. exists ip. split; [exact Hin|].
      apply has_error_spec. exists message. exact Hmessage. }
    rewrite Htrue in Hsome. discriminate Hsome.
Qed.



(** An id beyond the whole numbers a JavaScript number holds exactly is
    pushed as it is rendered, exponent included. *)
Example submitForm_pushes_the_rendered_id :
  Form.submitForm
    (fun _ => Resolved {| Form.id := Form.OtherNumber "1e+21";
                          Form.databaseFields := [] |})
    {| Form.label := "orders"; Form.engine := "mysql/8.0.26";
       Form.region := "us-east"; Form.type := "g6-standard-1";
       Form.failover_count := 0; Form.replication_type := "none";
       Form.allow_list := [] |}
  = [ Form.SetCreateError None;
      Form.SetSubmitting true;
      Form.CreateDatabase
        {| Form.payload_label := "orders";
           Form.payload_engine := "mysql/8.0.26";
           Form.payload_region := "us-east";
           Form.payload_type := "g6-standard-1";
           Form.payload_failover_count := 0;
           Form.payload_replication_type := "none";
           Form.payload_allow_list := [] |};
      Form.HistoryPush "/databases/1e+21";
      Form.SetSubmitting false ].
Proof. reflexivity. Qed.

Lemma without_error_is_clean ips :
  existsb Form.has_error (map Form.without_error ips) = false.
Proof.
  induction ips as [|ip ips IH]; [reflexivity | exact IH].
Qed.

(** X20. Validation followed by submission, for any validator: when a
    validated entry carries a non-empty error, the validated entries are
    written back as they are and the submission that follows does nothing;
    otherwise the entries are written back without any error field and the
    submission that follows sends exactly one request, with the validated
    addresses in their order. *)
Theorem validation_then_submission validateIPs createDatabase values :
  let validated :=
    validateIPs (Form.allow_list values) "Must be a valid IPv4 address" in
  let values' :=
    Form.apply_events (Form.handleIPValidation validateIPs values) values in
  let submitted := Form.submitForm createDatabase values' in
  if existsb Form.has_error validated
  then Form.allow_list values' = validated /\ submitted = []
  else
    Forall (fun ip => Form.error ip = None) (Form.allow_list values') /\
    exists payload,
      filter Form.is_createDatabase submitted
      = [Form.CreateDatabase payload] /\
      Form.payload_allow_list payload = map Form.address validated.
Proof.
  intros validated values' submitted.
  subst values' submitted. unfold Form.handleIPValidation.
  fold validated.
  destruct (existsb Form.has_error validated) eqn:Hsome; simpl.
  - split; [reflexivity|].
    unfold Form.submitForm. simpl. rewrite Hsome. reflexivity.
  - split.
    + apply Forall_forall. intros ip Hin.
      apply in_map_iff in Hin as [ip0 [<- _]]. reflexivity.
    + unfold Form.submitForm. simpl. rewrite without_error_is_clean.
      eexists. split.
      * destruct (createDatabase _); reflexivity.
      * simpl. rewrite map_map. reflexivity.
Qed.
